(** * A shallow embedding of [main.py]

    The service answers multiple-choice questions: [get_correct_answer] asks a
    completion API and reads a number off the end of its reply,
    [search_relevant_links] asks a web-search API for up to three links,
    [predict] glues both into a [PredictionResponse], and [log_requests] wraps
    every route with two log lines.

    Conventions of the embedding.
    - A Python [str] is a list of Unicode code points ([pystr]).
    - Python values that come out of [response.json()] are [json] values; a
      [dict] is a [gmap], Python's [None] is [JNull].
    - Everything the program cannot decide by itself -- what the completion
      API, the search API and the logger do -- is read from a [world].
    - Code that may raise runs in the monad [IO]: state passing for the log
      and the standard output, plus an [outcome] that is either a value or the
      exception in flight. *)

From Stdlib Require Import ZArith String Ascii.
From stdpp Require Import base option list gmap pretty.

Set Warnings "-register-all".
Set Default Proof Using "Type".

(** ** Python values *)

Abbreviation pystr := (list N).

(** What [json.loads] produces. A float keeps the literal it was read from:
    the program never computes with one. *)
Inductive json :=
| JNull
| JBool (b : bool)
| JInt (z : Z)
| JFloat (literal : pystr)
| JStr (s : pystr)
| JArr (l : list json)
| JObj (d : gmap pystr json).

(** What the interpreter is configured with and what its libraries say; all
    of it varies between installations. *)
Class Runtime := {
  (** decimal value of a non-ASCII code point of category Nd *)
  unicode_decimal : N → option N;
  (** [sys.get_int_max_str_digits()]; [0] switches the limit off (and stands
      for interpreters that predate it); the interpreter admits no other
      value below 640 *)
  int_max_str_digits : nat;
  (** [str(v)] for a float, a list or a dict *)
  str_container : json → pystr;
  (** pydantic's URL validation: the normalised URL, or [None] where it
      raises [ValidationError] *)
  validate_http_url : pystr → option pystr;
}.

(** ** Python strings and the builtins the source calls on them *)

Module Py.
Local Open Scope N_scope.

(** An ASCII literal as a [str]. *)
Definition codes (s : string) : pystr :=
  N_of_ascii <$> list_ascii_of_string s.

(** A literal of the source file (UTF-8 on disk) as the [str] the interpreter
    builds from it. Used for the Cyrillic constants only. *)
Fixpoint utf8_decode (bs : list N) : pystr :=
  match bs with
  | [] => []
  | b0 :: r0 =>
      if b0 <? 0x80 then b0 :: utf8_decode r0
      else match r0 with
      | [] => []
      | b1 :: r1 =>
          if b0 <? 0xE0 then ((b0 - 0xC0) * 64 + (b1 - 0x80)) :: utf8_decode r1
          else match r1 with
          | [] => []
          | b2 :: r2 =>
              if b0 <? 0xF0
              then ((b0 - 0xE0) * 4096 + (b1 - 0x80) * 64 + (b2 - 0x80))
                     :: utf8_decode r2
              else match r2 with
              | [] => []
              | b3 :: r3 =>
                  ((b0 - 0xF0) * 262144 + (b1 - 0x80) * 4096
                   + (b2 - 0x80) * 64 + (b3 - 0x80)) :: utf8_decode r3
              end
          end
      end
  end.

Definition text (s : string) : pystr := utf8_decode (codes s).

(** [str.isspace] on one code point: the interpreter's whitespace table
    (bidirectional classes WS, B, S and category Zs). [str.strip] and
    [str.split] without arguments use the same table. *)
Definition isspace (c : N) : bool :=
  ((0x09 <=? c) && (c <=? 0x0D)) || ((0x1C <=? c) && (c <=? 0x20))
  || (c =? 0x85) || (c =? 0xA0) || (c =? 0x1680)
  || ((0x2000 <=? c) && (c <=? 0x200A))
  || (c =? 0x2028) || (c =? 0x2029) || (c =? 0x202F) || (c =? 0x205F)
  || (c =? 0x3000).

Fixpoint drop_while {A} (p : A → bool) (l : list A) : list A :=
  match l with
  | [] => []
  | x :: l' => if p x then drop_while p l' else l
  end.

Fixpoint take_while {A} (p : A → bool) (l : list A) : list A :=
  match l with
  | [] => []
  | x :: l' => if p x then x :: take_while p l' else []
  end.

Definition lstrip (s : pystr) : pystr := drop_while isspace s.
Definition rstrip (s : pystr) : pystr := reverse (drop_while isspace (reverse s)).

(** [s.strip()] *)
Definition strip (s : pystr) : pystr := rstrip (lstrip s).

(** [s.split()]: the maximal runs of non-whitespace, left to right. [word] is
    the run being read. *)
Definition flush (word : pystr) : list pystr :=
  match word with [] => [] | _ => [word] end.

Fixpoint split_from (word s : pystr) : list pystr :=
  match s with
  | [] => flush word
  | c :: s' =>
      if isspace c then flush word ++ split_from [] s'
      else split_from (word ++ [c]) s'
  end.

Definition split (s : pystr) : list pystr := split_from [] s.

(** *** [int(s)] for a [str] argument, base 10 *)

Section int.
Context `{Runtime}.

(** First pass of [int]: non-ASCII digits become ASCII digits, non-ASCII
    whitespace becomes a blank, any other non-ASCII code point is refused. *)
Definition to_ascii (c : N) : option N :=
  if c <? 127 then Some c
  else if isspace c then Some 0x20
  else d ← unicode_decimal c; Some (0x30 + d).

Definition c_isspace (c : N) : bool :=
  ((0x09 <=? c) && (c <=? 0x0D)) || (c =? 0x20).

Definition c_isdigit (c : N) : bool := (0x30 <=? c) && (c <=? 0x39).

(** The digit scan: digits and single underscores between digits.
    [after_us] says the previous character was an underscore. Returns the
    number of digits read, their value and the unread rest. *)
Fixpoint scan_digits (after_us : bool) (ndigits : nat) (acc : Z) (s : pystr)
  : option (nat * Z * pystr) :=
  match s with
  | [] => if after_us then None else Some (ndigits, acc, [])
  | c :: s' =>
      if c_isdigit c
      then scan_digits false (S ndigits) (10 * acc + Z.of_N (c - 0x30)) s'
      else if c =? 0x5F
      then if after_us then None else scan_digits true ndigits acc s'
      else if after_us then None else Some (ndigits, acc, s)
  end.

Definition over_limit (ndigits : nat) : bool :=
  (0 <? int_max_str_digits)%nat && (int_max_str_digits <? ndigits)%nat.

Definition parse_decimal (s : pystr) : option Z :=
  let s := drop_while c_isspace s in
  let '(negative, s) :=
    match s with
    | 0x2B :: r => (false, r)
    | 0x2D :: r => (true, r)
    | _ => (false, s)
    end in
  match s with
  | 0x5F :: _ => None
  | _ =>
      '(ndigits, value, rest) ← scan_digits false 0 0 s;
      if (ndigits =? 0)%nat then None
      else if over_limit ndigits then None
      else match drop_while c_isspace rest with
           | [] => Some (if negative : bool then (- value)%Z else value)
           | _ => None
           end
  end.

(** [int(s)]: [Some z] for the integer, [None] where Python raises
    [ValueError]. *)
Definition int (s : pystr) : option Z :=
  mapM to_ascii s ≫= parse_decimal.

End int.
End Py.


(** ** Exceptions *)

(** The three classes the [except] clauses of the source tell apart, each
    standing for the exceptions that are instances of it and of none below:
    [ValueError] and its subclasses, the other subclasses of [Exception], and
    what is a [BaseException] only ([KeyboardInterrupt], [SystemExit],
    [asyncio.CancelledError]). *)
Inductive pyclass := ValueError | Exception | BaseException.

(** What a collaborator (the SDK, [httpx], the logger) raises: all the
    program tells of it is its class and its text. *)
Record failure := { failure_class : pyclass; failure_text : pystr }.

Inductive exn :=
| Foreign (f : failure)                   (* raised inside a collaborator *)
| IndexError                              (* [l[-1]] on an empty list *)
| AttributeError                          (* [None.content], [[].get], ... *)
| TypeError                               (* [5[:3]]; [KeyError] for a dict on
                                             interpreters with hashable slices *)
| InvalidLiteral (s : pystr)              (* [int(s)], a [ValueError] *)
| HTTPStatusError (status : Z)            (* [raise_for_status] *)
| JSONDecodeError                         (* [response.json()], a [ValueError] *)
| ValidationError (input : json)          (* pydantic, a [ValueError] *)
| UnicodeDecodeError                      (* [bytes.decode], a [ValueError] *)
| HTTPException (status_code : Z) (detail : message)
with message :=
| Literal (s : pystr)
| StrOf (e : exn).                        (* [str(e)] *)

Definition class_of (e : exn) : pyclass :=
  match e with
  | Foreign f => failure_class f
  | InvalidLiteral _ | JSONDecodeError | ValidationError _
  | UnicodeDecodeError => ValueError
  | IndexError | AttributeError | TypeError | HTTPStatusError _
  | HTTPException _ _ => Exception
  end.

(** [isinstance(e, cls)] for the three classes. *)
Definition isinstance (e : exn) (cls : pyclass) : bool :=
  match cls, class_of e with
  | BaseException, _ => true
  | Exception, (ValueError | Exception) => true
  | ValueError, ValueError => true
  | _, _ => false
  end.
Arguments isinstance : simpl never.

Inductive outcome (A : Type) :=
| Returned (a : A)
| Raised (e : exn).
Arguments Returned {A} a.
Arguments Raised {A} e.

#[global] Instance outcome_ret : MRet outcome := @Returned.
#[global] Instance outcome_bind : MBind outcome := λ A B f m,
  match m with
  | Returned a => f a
  | Raised e => Raised e
  end.

(** What a call into a collaborator comes back with. *)
Inductive reply (A : Type) :=
| Replied (a : A)
| Failed (f : failure).
Arguments Replied {A} a.
Arguments Failed {A} f.

(** An [option] whose [None] stands for raising [e]. *)
Definition or_raise {A} (e : exn) (o : option A) : outcome A :=
  match o with Some a => Returned a | None => Raised e end.

(** ** The collaborators *)

(** The completion SDK's reply, with the optional fields the source walks
    through. *)
Module Together.
Record ChatMessage := { content : option pystr }.
Record Choice := { message : option ChatMessage }.
Record ChatCompletion := { choices : option (list Choice) }.
Record request := { model : pystr; messages : list (pystr * pystr) }.
End Together.

Module httpx.
(** [json] is [None] where the body is not a JSON document. *)
Record Response := { status_code : Z; json : option json }.
End httpx.

Inductive level := INFO | ERROR.

(** The payload of an HTTP request as the middleware and the router see it. *)
Inductive payload :=
| NotUtf8                    (* [body.decode()] raises *)
| NotJson (txt : pystr)
| Json (j : json).

(** ** The schemas and the HTTP messages *)

(** Modelled from the spec: [schemas.request.PredictionRequest], which is not
    part of the sources at hand. The spec gives it the fields [id] (a string
    or a number, echoed back unmodified) and [query] (text) and has the
    incoming payload "structurally checked against the PredictionRequest
    shape (field presence/types)". *)
Record PredictionRequest := { id : json; query : pystr }.

(** Modelled from the spec: the values an [id] may take, "string or number";
    the declaration of the field is in the missing schema file. *)
Definition is_identifier (v : json) : bool :=
  match v with JStr _ | JInt _ | JFloat _ => true | _ => false end.

(** Modelled from the spec: the structural check of a payload against
    [PredictionRequest], which follows from the missing declaration: both
    fields present, [id] a string or a number, [query] a string. *)
Definition validate_request (j : json) : option PredictionRequest :=
  match j with
  | JObj d =>
      i ← d !! Py.codes "id";
      q ← d !! Py.codes "query";
      match q with
      | JStr s => if is_identifier i then Some {| id := i; query := s |} else None
      | _ => None
      end
  | _ => None
  end.

Module schemas.
(** Modelled from the spec: [schemas.request.PredictionResponse], which is not
    part of the sources at hand. The spec's interface gives the body as
    [{"id": <id>, "answer": <int>, "reasoning": <string>, "sources": [<url>,
    ...]}]. *)
Record PredictionResponse := {
  id : json;
  answer : Z;
  reasoning : pystr;
  sources : list pystr;
}.
End schemas.

(** Modelled from the spec: the call [PredictionResponse(id=..., answer=...,
    reasoning=..., sources=...)] of the missing schema. It stores the fields
    as given; a field of the wrong type (an [answer] that is [None], an [id]
    that is neither string nor number) surfaces "at the
    response-construction boundary" as pydantic's validation error, a
    subclass of [ValueError]. *)
Definition PredictionResponse (id : json) (answer : option Z)
  (reasoning : pystr) (sources : list pystr)
  : outcome schemas.PredictionResponse :=
  if is_identifier id then
    match answer with
    | Some z =>
        Returned {| schemas.id := id; schemas.answer := z;
                    schemas.reasoning := reasoning;
                    schemas.sources := sources |}
    | None => Raised (ValidationError JNull)
    end
  else Raised (ValidationError id).

(** What a reply carries: a serialised [PredictionResponse], the
    [{"detail": ...}] of an [HTTPException], or the framework's own list of
    request-validation errors. *)
Inductive reply_body :=
| PredictionBody (r : schemas.PredictionResponse)
| DetailBody (detail : message)
| RequestErrors (input : payload).

Record Request := { method : pystr; url : pystr; body : payload }.
Record Response := { status_code : Z; content : reply_body }.

(** The log lines of the source, with the values their f-strings print. The
    elapsed time of [RequestCompleted], a float, is left out. *)
Inductive log_line :=
| IncomingRequest (method url : pystr) (body : payload)
| RequestCompleted (method url : pystr) (status : Z) (body : reply_body)
| ProcessingRequest (id : json)
| ProcessedRequest (id : json)
| ValidationFailure (id : json) (e : exn)
| InternalFailure (id : json) (e : exn).

(** One request's surroundings. [chat_create] is
    [client.chat.completions.create] of the client built at import time;
    [http_get] is [httpx.get]; [logger_call n] is what the [n]-th call on the
    global [logger] does during this request ([logger] still [None] is every
    call failing). A falsy reply of the SDK is [Replied None]. *)
Record world := {
  getenv : pystr → option pystr;
  chat_create : Together.request → reply (option Together.ChatCompletion);
  http_get : pystr → gmap pystr (option pystr) → reply httpx.Response;
  logger_call : nat → option failure;
}.

(** ** State and the [IO] monad *)

Record io := {
  log_calls : nat;
  log : list (level * log_line);
  stdout : list (pystr * exn);     (* [print(f"{prefix}{e}")] *)
}.

Definition io0 : io := {| log_calls := 0; log := []; stdout := [] |}.

Definition IO (A : Type) : Type := io → outcome A * io.

#[global] Instance IO_ret : MRet IO := λ A a st, (Returned a, st).
#[global] Instance IO_bind : MBind IO := λ A B f m st,
  match m st with
  | (Returned a, st') => f a st'
  | (Raised e, st') => (Raised e, st')
  end.

(** Expose the first action of a sequence in [IO]. *)
Ltac io_step := unfold mbind at 1; unfold IO_bind.

Definition call {A} (o : outcome A) : IO A := λ st, (o, st).
Definition raise {A} (e : exn) : IO A := call (Raised e).
Definition ask {A} (r : reply A) : IO A := λ st,
  match r with
  | Replied a => (Returned a, st)
  | Failed f => (Raised (Foreign f), st)
  end.

(** [try: body  except c1 as e: h1 e  except c2 as e: h2 e ...]: the first
    clause whose class the exception is an instance of handles it. *)
Fixpoint dispatch {A} (handlers : list (pyclass * (exn → IO A))) (e : exn)
  : IO A :=
  match handlers with
  | [] => raise e
  | (cls, h) :: rest => if isinstance e cls then h e else dispatch rest e
  end.

Definition try_except {A} (body : IO A)
  (handlers : list (pyclass * (exn → IO A))) : IO A := λ st,
  match body st with
  | (Returned a, st') => (Returned a, st')
  | (Raised e, st') => dispatch handlers e st'
  end.

(** The state after a line was printed, and after a log line was written. *)
Definition printed (prefix : pystr) (e : exn) (st : io) : io :=
  {| log_calls := log_calls st; log := log st;
     stdout := stdout st ++ [(prefix, e)] |}.

Definition logged (lvl : level) (line : log_line) (st : io) : io :=
  {| log_calls := S (log_calls st); log := log st ++ [(lvl, line)];
     stdout := stdout st |}.

Definition print (prefix : pystr) (e : exn) : IO () := λ st,
  (Returned (), printed prefix e st).

Section program.
Context `{Runtime} (w : world).

Definition logger_write (lvl : level) (line : log_line) : IO () := λ st,
  match logger_call w (log_calls st) with
  | None => (Returned (), logged lvl line st)
  | Some f =>
      (Raised (Foreign f),
       {| log_calls := S (log_calls st); log := log st; stdout := stdout st |})
  end.

(** [await logger.info(...)], [await logger.error(...)] *)
Definition logger_info := logger_write INFO.
Definition logger_error := logger_write ERROR.

(** *** Module-level constants *)

Definition TOGETHER_API_KEY := getenv w (Py.codes "TOGETHER_API_KEY").
Definition GOOGLE_SEARCH_API_URL : pystr :=
  Py.codes "https://www.googleapis.com/customsearch/v1".
Definition GOOGLE_SEARCH_API_KEY := getenv w (Py.codes "GOOGLE_SEARCH_API_KEY").
Definition GOOGLE_SEARCH_CX := getenv w (Py.codes "GOOGLE_SEARCH_CX").

Definition newline : pystr := [10%N].

(** *** [get_correct_answer] *)

Definition system_prompt : pystr :=
  Py.text "Ты помощник, который выбирает правильный ответ на вопросы об Университете ИТМО.".

Definition user_prompt (query : pystr) : pystr :=
  Py.text "Вопрос: " ++ query ++ newline ++
  Py.text "Выбери правильный ответ из предложенных вариантов и укажи только его номер (цифру от 1 до 10).".

Definition completion_request (query : pystr) : Together.request := {|
  Together.model := Py.codes "deepseek-ai/DeepSeek-R1";
  Together.messages :=
    [(Py.codes "system", system_prompt); (Py.codes "user", user_prompt query)];
|}.

Definition answer_error_prefix : pystr :=
  Py.text "Ошибка при запросе к DeepSeek API: ".

(** [response.choices[0].message.content.strip().split()[-1]] followed by
    [int(answer_text)], for a non-empty [choices]. *)
Definition read_answer (first : Together.Choice) : outcome Z :=
  m ← or_raise AttributeError (Together.message first);
  s ← or_raise AttributeError (Together.content m);
  answer_text ← or_raise IndexError (last (Py.split (Py.strip s)));
  or_raise (InvalidLiteral answer_text) (Py.int answer_text).

(** The result is an [int] or, where control falls off the end of the
    function, Python's [None]. *)
Definition get_correct_answer (query : pystr) : IO (option Z) :=
  try_except
    (response ← ask (chat_create w (completion_request query));
     match response ≫= Together.choices with
     | Some (first :: _) => z ← call (read_answer first); mret (Some z)
     | Some [] | None => mret None
     end)
    [(Exception, λ e, print answer_error_prefix e;; mret (Some (-1)%Z))].

(** *** [search_relevant_links] *)

Definition search_lead_in : pystr :=
  Py.text "Результаты поиска указывают на следующие источники:".
Definition search_error_prefix : pystr :=
  Py.text "Ошибка при поиске Google Search API: ".
Definition search_apology : pystr :=
  Py.text "Не удалось найти релевантную информацию.".

(** [str(v)], as an f-string field prints a value. *)
Definition py_str (v : json) : pystr :=
  match v with
  | JStr s => s
  | JNull => Py.codes "None"
  | JBool true => Py.codes "True"
  | JBool false => Py.codes "False"
  | JInt z => Py.codes (pretty z)
  | JFloat _ | JArr _ | JObj _ => str_container v
  end.

(** [v.get(key, default)]; only a [dict] has the method. *)
Definition get (v : json) (key : pystr) (dflt : json) : outcome json :=
  match v with
  | JObj d => Returned (default dflt (d !! key))
  | _ => Raised AttributeError
  end.

(** [v[:3]]; a [str] slices to a [str], whose elements are its characters. *)
Definition first3 (v : json) : outcome (list json) :=
  match v with
  | JArr l => Returned (take 3 l)
  | JStr s => Returned ((λ c, JStr [c]) <$> take 3 s)
  | _ => Raised TypeError
  end.

(** [HttpUrl(link)] *)
Definition HttpUrl (link : json) : outcome pystr :=
  match link with
  | JStr s => or_raise (ValidationError link) (validate_http_url s)
  | _ => Raised (ValidationError link)
  end.

(** [response.raise_for_status()] *)
Definition raise_for_status (r : httpx.Response) : outcome () :=
  if bool_decide (200 ≤ httpx.status_code r ≤ 299)%Z then Returned ()
  else Raised (HTTPStatusError (httpx.status_code r)).

(** The [for] loop, from the state it has reached. *)
Fixpoint collect (items : list json) (sources : list pystr) (reasoning : pystr)
  : outcome (list pystr * pystr) :=
  match items with
  | [] => Returned (sources, reasoning)
  | item :: rest =>
      title ← get item (Py.codes "title") JNull;
      link ← get item (Py.codes "link") JNull;
      u ← HttpUrl link;
      collect rest (sources ++ [u])
        (reasoning ++ newline ++ Py.codes "- " ++ py_str title
                   ++ Py.codes ": " ++ py_str link)
  end.

Definition search_params (query : pystr) : gmap pystr (option pystr) :=
  {[ Py.codes "key" := GOOGLE_SEARCH_API_KEY;
     Py.codes "cx" := GOOGLE_SEARCH_CX;
     Py.codes "q" := Some query ]}.

(** The [try] block from [raise_for_status] on: no collaborator is involved
    any more. *)
Definition read_results (response : httpx.Response)
  : outcome (list pystr * pystr) :=
  raise_for_status response;;
  data ← or_raise JSONDecodeError (httpx.json response);
  items ← get data (Py.codes "items") (JArr []);
  items ← first3 items;
  collect items [] search_lead_in.

Definition search_relevant_links (query : pystr) : IO (list pystr * pystr) :=
  let params := search_params query in
  try_except
    (response ← ask (http_get w GOOGLE_SEARCH_API_URL params);
     call (read_results response))
    [(Exception, λ e, print search_error_prefix e;; mret ([], search_apology))].

(** *** [predict] *)

Definition internal_server_error : pystr := Py.codes "Internal server error".

(** The [try] block of [predict]. *)
Definition predict_try (body : PredictionRequest)
  : IO schemas.PredictionResponse :=
  logger_info (ProcessingRequest (id body));;
  answer ← get_correct_answer (query body);
  '(sources, reasoning) ← search_relevant_links (query body);
  response ← call (PredictionResponse (id body) answer reasoning sources);
  logger_info (ProcessedRequest (id body));;
  mret response.

Definition predict (body : PredictionRequest)
  : IO schemas.PredictionResponse :=
  try_except (predict_try body)
    [(ValueError, λ e,
        let error_msg := StrOf e in
        logger_error (ValidationFailure (id body) e);;
        raise (HTTPException 400 error_msg));
     (Exception, λ e,
        logger_error (InternalFailure (id body) e);;
        raise (HTTPException 500 (Literal internal_server_error)))].

(** *** The framework around [predict] *)

(** The status the framework gives a payload that does not validate against
    the handler's parameter type; the source installs no handler of its own
    for it. *)
Definition HTTP_422_UNPROCESSABLE_ENTITY : Z := 422.

(** [@app.post("/api/request", response_model=PredictionResponse)]: the
    payload is validated into the handler's parameter before the handler
    runs; a returned model is a 200; an [HTTPException] becomes a reply with
    its status and detail; any other exception travels on. *)
Definition api_request (request : Request) : IO Response :=
  match body request with
  | Json j =>
      match validate_request j with
      | Some parsed => λ st,
          match predict parsed st with
          | (Returned r, st') =>
              (Returned {| status_code := 200; content := PredictionBody r |},
               st')
          | (Raised (HTTPException status detail), st') =>
              (Returned {| status_code := status;
                           content := DetailBody detail |}, st')
          | (Raised e, st') => (Raised e, st')
          end
      | None =>
          mret {| status_code := HTTP_422_UNPROCESSABLE_ENTITY;
                  content := RequestErrors (body request) |}
      end
  | other =>
      mret {| status_code := HTTP_422_UNPROCESSABLE_ENTITY;
              content := RequestErrors other |}
  end.

(** [bytes.decode()] of the request body *)
Definition decode (p : payload) : outcome payload :=
  match p with
  | NotUtf8 => Raised UnicodeDecodeError
  | _ => Returned p
  end.

(** *** [log_requests] *)

Definition log_requests (request : Request)
  (call_next : Request → IO Response) : IO Response :=
  body ← call (decode (body request));
  logger_info (IncomingRequest (method request) (url request) body);;
  response ← call_next request;
  logger_info (RequestCompleted (method request) (url request)
                 (status_code response) (content response));;
  mret {| status_code := status_code response; content := content response |}.

(** A POST to [/api/request] through the middleware: the code of the source
    and the route it declares, no more. An exception that leaves here is the
    server's to answer; neither the framework's outermost error handler nor
    what it does to an escaping exception on its way out is part of [app]. *)
Definition app (request : Request) : IO Response :=
  log_requests request api_request.

End program.

(** ** Notions the statements are phrased with *)

(** The spec's "last whitespace-delimited token" of a text, read off the text
    from its end: skip the trailing whitespace, then take the characters back
    to the nearest whitespace. [None] for a text that has no token. *)
Definition spec_last_token (s : pystr) : option pystr :=
  match Py.drop_while Py.isspace (reverse s) with
  | [] => None
  | r => Some (reverse (Py.take_while (λ c, negb (Py.isspace c)) r))
  end.

(** The text of the first choice, where the reply has one. *)
Definition first_content (c : Together.Choice) : option pystr :=
  Together.message c ≫= Together.content.

Section notions.
Context `{Runtime}.

(** A syntactically valid URL: something the validation lets through. *)
Definition valid_url (u : pystr) : Prop :=
  ∃ s, validate_http_url s = Some u.

(** The validated link of a search result, for a result that has one. *)
Definition item_url (item : json) : option pystr :=
  match item with
  | JObj d =>
      match d !! Py.codes "link" with
      | Some (JStr s) => validate_http_url s
      | _ => None
      end
  | _ => None
  end.

(** The result items of a search payload: the list under ["items"], none
    where the key is absent. *)
Definition result_items (data : json) : option (list json) :=
  match data with
  | JObj d =>
      match d !! Py.codes "items" with
      | None => Some []
      | Some (JArr l) => Some l
      | Some _ => None
      end
  | _ => None
  end.

Definition success_status (r : httpx.Response) : bool :=
  bool_decide (200 ≤ httpx.status_code r ≤ 299)%Z.

(** A payload the retriever cannot work through: not an object, something
    under ["items"] that is no list of results, or one of the first three
    results without a valid link. *)
Definition malformed (data : json) : bool :=
  match data with
  | JObj d =>
      match d !! Py.codes "items" with
      | None => false
      | Some (JArr l) => existsb (λ item, bool_decide (item_url item = None)) (take 3 l)
      | Some (JStr s) => bool_decide (s ≠ [])
      | Some _ => true
      end
  | _ => true
  end.

(** The search API call fails: a transport error, a status outside 2xx, a
    body that is not JSON, or a malformed payload. *)
Definition search_failed (r : reply httpx.Response) : bool :=
  match r with
  | Failed f => isinstance (Foreign f) Exception
  | Replied r =>
      negb (success_status r)
      || match httpx.json r with
         | None => true
         | Some data => malformed data
         end
  end.

End notions.

(** ** Concrete surroundings, for running the program *)

(** An interpreter with the default digit limit whose database knows the
    Arabic-Indic digits besides the ASCII ones, and a URL check that looks at
    the scheme only. *)
Definition sample_runtime : Runtime := {|
  unicode_decimal c :=
    if ((0x660 <=? c) && (c <=? 0x669))%N then Some (c - 0x660)%N else None;
  int_max_str_digits := 4300;
  str_container _ := Py.codes "...";
  validate_http_url s :=
    if bool_decide (take 7 s = Py.codes "http://")
       || bool_decide (take 8 s = Py.codes "https://")
    then Some s else None;
|}.

Definition completion (s : string) : reply (option Together.ChatCompletion) :=
  Replied (Some {| Together.choices := Some [
    {| Together.message := Some {| Together.content := Some (Py.codes s) |} |}
  ] |}).

Definition search_result (title link : string) : json :=
  JObj {[ Py.codes "title" := JStr (Py.codes title);
          Py.codes "link" := JStr (Py.codes link) ]}.

Definition search_payload (items : list json) : reply httpx.Response :=
  Replied {| httpx.status_code := 200;
             httpx.json := Some (JObj {[ Py.codes "items" := JArr items ]}) |}.

Definition post (j : json) : Request :=
  {| method := Py.codes "POST"; url := Py.codes "/api/request";
     body := Json j |}.

Definition sample_query : pystr :=
  Py.codes "Where is ITMO? 1. Moscow 2. Saint Petersburg".

Definition question : json :=
  JObj {[ Py.codes "id" := JInt 7; Py.codes "query" := JStr sample_query ]}.


Definition itmo_results : list json :=
  [search_result "ITMO" "https://itmo.ru";
   search_result "News" "https://news.itmo.ru";
   search_result "Wiki" "https://en.wikipedia.org/wiki/ITMO_University";
   search_result "Map" "https://maps.example/itmo"].

Definition quiet_world (chat : reply (option Together.ChatCompletion))
  (search : reply httpx.Response) : world :=
  {| getenv _ := None; chat_create _ := chat; http_get _ _ := search;
     logger_call _ := None |}.

(** The model answers "2" at the end of a sentence. *)
Definition world_ok : world :=
  quiet_world (completion "The answer is 2") (search_payload itmo_results).

(** The model ends its reply with a number that is no option. *)
Definition world_42 : world :=
  quiet_world (completion "The answer is 42") (search_payload itmo_results).

(** The completion API replies without choices. *)
Definition world_no_choices : world :=
  quiet_world (Replied (Some {| Together.choices := Some [] |}))
    (search_payload itmo_results).

(** The second search result carries something that is no URL. *)
Definition world_bad_link : world :=
  quiet_world (completion "2")
    (search_payload [search_result "ITMO" "https://itmo.ru";
                     search_result "Broken" "not a url";
                     search_result "News" "https://news.itmo.ru"]).

(** The search API is unreachable. *)
Definition world_search_down : world :=
  quiet_world (completion "2")
    (Failed {| failure_class := Exception;
               failure_text := Py.codes "[Errno 111] Connection refused" |}).

(** A logger whose write of the handler's first line raises a [ValueError],
    as a write on a closed stream does (the call before that one is the
    middleware's). *)
Definition closed_file : failure :=
  {| failure_class := ValueError;
     failure_text := Py.codes "I/O operation on closed file." |}.

Definition world_logger_closed : world :=
  {| getenv _ := None; chat_create _ := completion "2";
     http_get _ _ := search_payload itmo_results;
     logger_call n := if (n =? 1)%nat then Some closed_file else None |}.

(** A logger that fails once inside the handler with an [OSError]. *)
Definition disk_full : failure :=
  {| failure_class := Exception;
     failure_text := Py.codes "[Errno 28] No space left on device" |}.

Definition world_logger_hiccup : world :=
  {| getenv _ := None; chat_create _ := completion "2";
     http_get _ _ := search_payload itmo_results;
     logger_call n := if (n =? 1)%nat then Some disk_full else None |}.

(** The global [logger] was never set: every call on it raises
    [AttributeError]. *)
Definition logger_is_None : failure :=
  {| failure_class := Exception;
     failure_text :=
       Py.codes "'NoneType' object has no attribute 'info'" |}.

Definition world_no_logger : world :=
  {| getenv _ := None; chat_create _ := completion "2";
     http_get _ _ := search_payload itmo_results;
     logger_call _ := Some logger_is_None |}.

(** ** Further notions and surroundings *)

(** [s] begins with the character [c]. *)
Definition begins (c : N) (s : pystr) : bool :=
  match s with x :: _ => (x =? c)%N | [] => false end.

(** The number a string of ASCII digits denotes in base 10. *)
Definition decimal_value (ds : pystr) : Z :=
  fold_left (λ acc c, (10 * acc + Z.of_N (c - 0x30))%Z) ds 0%Z.

(** The line of the reasoning that the loop writes for one search result:
    [f"\n- {title}: {link}"], with [None] for a field the result lacks. *)
Definition result_line `{Runtime} (item : json) : pystr :=
  match item with
  | JObj d =>
      newline ++ Py.codes "- "
        ++ py_str (default JNull (d !! Py.codes "title"))
        ++ Py.codes ": "
        ++ py_str (default JNull (d !! Py.codes "link"))
  | _ => []
  end.

(** The model closes its sentence with a full stop. *)
Definition world_full_stop : world :=
  quiet_world (completion "The answer is 3.") (search_payload itmo_results).

(** The request is cancelled while the completion call is awaited, or while
    the search call is. *)
Definition cancelled : failure :=
  {| failure_class := BaseException; failure_text := Py.codes "" |}.

Definition world_cancelled : world :=
  quiet_world (Failed cancelled) (search_payload itmo_results).

Definition world_search_cancelled : world :=
  quiet_world (completion "2") (Failed cancelled).

(** The search API has nothing to report: its payload has no ["items"]. *)
Definition world_no_results : world :=
  quiet_world (completion "2")
    (Replied {| httpx.status_code := 200; httpx.json := Some (JObj ∅) |}).

(** A logger that fails on the line the middleware writes after the
    handler has answered (four lines into a successful request). *)
Definition world_last_line_fails : world :=
  {| getenv _ := None; chat_create _ := completion "2";
     http_get _ _ := search_payload itmo_results;
     logger_call n := if (n =? 3)%nat then Some disk_full else None |}.



(** * Properties *)

(** ** Strings: [strip], [split] and the last token *)

Section strings.
Import Py.

Lemma drop_while_app {A} (p : A → bool) (l k : list A) :
  drop_while p (l ++ k) =
  match drop_while p l with [] => drop_while p k | r => r ++ k end.
Proof.
  induction l as [|x l IH]; simpl.
  - by destruct (drop_while p k).
  - destruct (p x); [apply IH | done].
Qed.

Lemma drop_while_idem {A} (p : A → bool) (l : list A) :
  drop_while p (drop_while p l) = drop_while p l.
Proof.
  induction l as [|x l IH]; simpl; [done|].
  destruct (p x) eqn:E; [done | simpl; by rewrite E].
Qed.

Lemma take_while_app_stop {A} (p : A → bool) (l k : list A) (x : A) :
  p x = false → take_while p (l ++ x :: k) = take_while p l.
Proof.
  intros Hx. induction l as [|y l IH]; simpl.
  - by rewrite Hx.
  - destruct (p y); [by rewrite IH | done].
Qed.

Lemma take_while_all {A} (p : A → bool) (l : list A) :
  Forall (λ x, p x = true) l → take_while p l = l.
Proof. induction 1 as [|x l Hx _ IH]; simpl; [done | by rewrite Hx, IH]. Qed.

Lemma drop_while_none {A} (p : A → bool) (l : list A) :
  Forall (λ x, p x = false) l → drop_while p l = l.
Proof. destruct 1 as [|x l Hx _]; simpl; [done | by rewrite Hx]. Qed.

(** A token that a whitespace follows is not changed by what comes after. *)
Lemma spec_last_token_cut (pre s : pystr) (c : N) :
  isspace c = true →
  spec_last_token (pre ++ c :: s) =
  match spec_last_token s with
  | Some t => Some t
  | None => spec_last_token pre
  end.
Proof.
  intros Hc. unfold spec_last_token.
  rewrite reverse_app, reverse_cons, <-(assoc_L (++)), drop_while_app.
  destruct (drop_while isspace (reverse s)) as [|y r] eqn:E.
  - simpl. by rewrite Hc.
  - simpl. by rewrite take_while_app_stop by (by rewrite Hc).
Qed.

Lemma spec_last_token_word (word : pystr) :
  Forall (λ c, isspace c = false) word →
  spec_last_token word = last (flush word).
Proof.
  intros Hw. unfold spec_last_token.
  assert (Hr : Forall (λ c, isspace c = false) (reverse word))
    by (by apply Forall_reverse).
  rewrite (drop_while_none _ _ Hr).
  destruct word as [|c word]; [done|].
  destruct (reverse (c :: word)) as [|y r] eqn:E.
  { apply (f_equal length) in E. rewrite length_reverse in E. done. }
  rewrite <-E, take_while_all, reverse_involutive; [done|].
  rewrite E. eapply Forall_impl; [exact Hr|]. by intros ? ->.
Qed.

Lemma last_split_from (s word : pystr) :
  Forall (λ c, isspace c = false) word →
  last (split_from word s) = spec_last_token (word ++ s).
Proof.
  revert word. induction s as [|c s IH]; intros word Hw; simpl.
  - by rewrite app_nil_r, spec_last_token_word.
  - destruct (isspace c) eqn:Hc.
    + pose proof (IH [] (Forall_nil_2 _)) as IH0. simpl in IH0.
      rewrite spec_last_token_cut, <-IH0, (spec_last_token_word word) by done.
      rewrite last_app. by destruct (last (split_from [] s)).
    + rewrite IH, <-(assoc_L (++)); [done|].
      apply Forall_app; split; [done | by constructor].
Qed.

Lemma spec_last_token_lstrip (s : pystr) :
  spec_last_token (lstrip s) = spec_last_token s.
Proof.
  induction s as [|c s IH]; simpl; [done|].
  destruct (isspace c) eqn:Hc; [|by unfold lstrip; simpl; rewrite Hc].
  change (c :: s) with ([] ++ c :: s) at 2.
  rewrite spec_last_token_cut by done.
  unfold lstrip in *; simpl. rewrite Hc, IH.
  by destruct (spec_last_token s).
Qed.

Lemma spec_last_token_rstrip (s : pystr) :
  spec_last_token (rstrip s) = spec_last_token s.
Proof.
  unfold spec_last_token, rstrip.
  by rewrite reverse_involutive, drop_while_idem.
Qed.

(** [s.strip().split()[-1]] is the last whitespace-delimited token of [s],
    and raises [IndexError] exactly where [s] has none. *)
Lemma last_split_strip (s : pystr) :
  last (split (strip s)) = spec_last_token s.
Proof.
  unfold split, strip.
  rewrite (last_split_from _ []) by constructor. simpl.
  by rewrite spec_last_token_rstrip, spec_last_token_lstrip.
Qed.

End strings.

(** ** The answer resolver *)

Section resolver.
Context `{Runtime} (w : world).

(** What [read_answer] computes, in the words of the spec: the integer the
    last token of the first choice's text parses to; an exception of class
    [Exception] where there is no text, no token or no integer. *)
Lemma read_answer_spec (first : Together.Choice) :
  match (first_content first ≫= spec_last_token) ≫= Py.int with
  | Some z => read_answer first = Returned z
  | None => ∃ e, read_answer first = Raised e ∧ isinstance e Exception = true
  end.
Proof.
  unfold read_answer, first_content.
  destruct (Together.message first) as [m|]; simpl; [|by eexists].
  destruct (Together.content m) as [s|]; simpl; [|by eexists].
  rewrite last_split_strip.
  destruct (spec_last_token s) as [t|]; simpl; [|by eexists].
  destruct (Py.int t); simpl; [done | by eexists].
Qed.

(** The run of [get_correct_answer], case by case. *)
Lemma get_correct_answer_run (query : pystr) (st : io) :
  get_correct_answer w query st =
  match chat_create w (completion_request query) with
  | Failed f =>
      if isinstance (Foreign f) Exception
      then (Returned (Some (-1)%Z), printed answer_error_prefix (Foreign f) st)
      else (Raised (Foreign f), st)
  | Replied response =>
      match response ≫= Together.choices with
      | Some (first :: _) =>
          match read_answer first with
          | Returned z => (Returned (Some z), st)
          | Raised e =>
              (Returned (Some (-1)%Z), printed answer_error_prefix e st)
          end
      | _ => (Returned None, st)
      end
  end.
Proof.
  unfold get_correct_answer, try_except.
  unfold mbind at 1. unfold IO_bind, ask.
  destruct (chat_create w (completion_request query)) as [response|f]; simpl.
  - destruct (response ≫= Together.choices) as [[|first rest]|]; [done| |done].
    pose proof (read_answer_spec first) as Hspec.
    unfold mbind, IO_bind, call.
    destruct (read_answer first) as [z|e]; [done|].
    destruct ((first_content first ≫= spec_last_token) ≫= Py.int);
      [done|]. destruct Hspec as (e' & [= <-] & He). simpl. by rewrite He.
  - by destruct (isinstance (Foreign f) Exception).
Qed.

(** No exception of class [Exception] leaves [get_correct_answer]; what does
    leave it came out of the SDK. *)
Lemma get_correct_answer_raised query st e st' :
  get_correct_answer w query st = (Raised e, st') →
  ∃ f, e = Foreign f ∧ isinstance e Exception = false ∧ st' = st.
Proof.
  rewrite get_correct_answer_run.
  destruct (chat_create w (completion_request query)) as [response|f].
  - destruct (response ≫= Together.choices) as [[|first rest]|]; [done| |done].
    by destruct (read_answer first).
  - destruct (isinstance (Foreign f) Exception) eqn:E; [done|].
    intros [= <- <-]. eauto.
Qed.

Lemma get_correct_answer_log query st a st' :
  get_correct_answer w query st = (a, st') →
  log_calls st' = log_calls st ∧ log st' = log st.
Proof.
  rewrite get_correct_answer_run.
  destruct (chat_create w (completion_request query)) as [response|f].
  - destruct (response ≫= Together.choices) as [[|first rest]|];
      [by intros [= <- <-]| |by intros [= <- <-]].
    by destruct (read_answer first); intros [= <- <-].
  - by destruct (isinstance (Foreign f) Exception); intros [= <- <-].
Qed.

End resolver.

(** ** The evidence retriever *)

Section retriever.
Context `{Runtime} (w : world).

(** One turn of the loop: it goes on with the validated link appended, or
    raises where the result has no valid link. *)
Lemma collect_cons_ok item rest sources reasoning u :
  item_url item = Some u →
  ∃ line, collect (item :: rest) sources reasoning =
          collect rest (sources ++ [u]) (reasoning ++ line).
Proof.
  destruct item as [| | | | |l|d]; try done. simpl.
  destruct (d !! Py.codes "link") as [[| | | |s| |]|] eqn:E; try done.
  intros Hu. simpl. rewrite Hu. simpl. eauto.
Qed.

Lemma collect_cons_bad item rest sources reasoning :
  item_url item = None →
  ∃ e, collect (item :: rest) sources reasoning = Raised e
       ∧ isinstance e Exception = true.
Proof.
  destruct item as [| | | | |l|d]; simpl; try by eexists.
  destruct (d !! Py.codes "link") as [[| | | |s| |]|] eqn:E;
    simpl; try by eexists.
  intros ->. simpl. by eexists.
Qed.

Lemma collect_bad items sources reasoning :
  Exists (λ item, item_url item = None) items →
  ∃ e, collect items sources reasoning = Raised e
       ∧ isinstance e Exception = true.
Proof.
  intros Hbad. revert sources reasoning.
  induction Hbad as [item rest Hitem|item rest _ IH]; intros sources reasoning.
  - by apply collect_cons_bad.
  - destruct (item_url item) as [u|] eqn:Hitem.
    + destruct (collect_cons_ok item rest sources reasoning u Hitem)
        as [line ->]. apply IH.
    + by apply collect_cons_bad.
Qed.

Lemma collect_raised items sources reasoning e :
  collect items sources reasoning = Raised e → isinstance e Exception = true.
Proof.
  revert sources reasoning.
  induction items as [|item rest IH]; intros sources reasoning; [done|].
  destruct (item_url item) as [u|] eqn:Hitem.
  - destruct (collect_cons_ok item rest sources reasoning u Hitem)
      as [line ->]. apply IH.
  - destruct (collect_cons_bad item rest sources reasoning Hitem)
      as (e' & -> & He). by intros [= <-].
Qed.

(** A loop that runs to its end has appended one validated link per item, in
    order, and has only added to the reasoning. *)
Lemma collect_returned items sources reasoning sources' reasoning' :
  collect items sources reasoning = Returned (sources', reasoning') →
  ∃ urls more,
    sources' = sources ++ urls ∧ reasoning' = reasoning ++ more
    ∧ Forall2 (λ item u, item_url item = Some u) items urls.
Proof.
  revert sources reasoning.
  induction items as [|item rest IH]; intros sources reasoning.
  - intros [= <- <-]. exists [], []. by rewrite !app_nil_r.
  - destruct (item_url item) as [u|] eqn:Hitem.
    + destruct (collect_cons_ok item rest sources reasoning u Hitem)
        as [line ->].
      intros (urls & more & -> & -> & Hall)%IH.
      exists (u :: urls), (line ++ more).
      rewrite <-!(assoc_L (++)). split_and!; [done..|by constructor].
    + by destruct (collect_cons_bad item rest sources reasoning Hitem)
        as (e' & -> & He).
Qed.

Lemma collect_ok items sources reasoning :
  Forall (λ item, is_Some (item_url item)) items →
  ∃ urls more,
    collect items sources reasoning =
      Returned (sources ++ urls, reasoning ++ more)
    ∧ Forall2 (λ item u, item_url item = Some u) items urls.
Proof.
  intros Hall. revert sources reasoning.
  induction Hall as [|item rest [u Hitem] _ IH]; intros sources reasoning.
  - exists [], []. by rewrite !app_nil_r.
  - destruct (collect_cons_ok item rest sources reasoning u Hitem)
      as [line ->].
    destruct (IH (sources ++ [u]) (reasoning ++ line))
      as (urls & more & -> & Hurls).
    exists (u :: urls), (line ++ more).
    rewrite <-!(assoc_L (++)). by split; [|constructor].
Qed.

Lemma item_url_valid item u : item_url item = Some u → valid_url u.
Proof.
  destruct item as [| | | | |l|d]; try done. simpl.
  destruct (d !! Py.codes "link") as [[| | | |s| |]|]; try done.
  intros Hu. by exists s.
Qed.

Lemma Forall2_item_url_valid items urls :
  Forall2 (λ item u, item_url item = Some u) items urls →
  Forall valid_url urls.
Proof.
  induction 1; constructor; [by eapply item_url_valid | done].
Qed.

(** Everything the [try] block raises after the HTTP call is an
    [Exception]. *)
Lemma read_results_raised response e :
  read_results response = Raised e → isinstance e Exception = true.
Proof.
  unfold read_results, raise_for_status.
  case_bool_decide; simpl; [|by intros [= <-]].
  destruct (httpx.json response) as [data|]; simpl; [|by intros [= <-]].
  destruct data as [| | | | |l|d]; simpl; try by intros [= <-].
  destruct (default (JArr []) (d !! Py.codes "items")) as [| | | |s|l|d'];
    simpl; try (by intros [= <-]); apply collect_raised.
Qed.

(** What the block returns: the lead-in followed by the lines of the loop, at
    most three sources, each of them validated. *)
Lemma read_results_returned response sources reasoning :
  read_results response = Returned (sources, reasoning) →
  (∃ more, reasoning = search_lead_in ++ more)
  ∧ length sources ≤ 3 ∧ Forall valid_url sources.
Proof.
  unfold read_results, raise_for_status.
  case_bool_decide; simpl; [|done].
  destruct (httpx.json response) as [data|]; simpl; [|done].
  destruct data as [| | | | |l|d]; simpl; try done.
  assert (Hloop : ∀ items : list json, length items ≤ 3 →
    collect items [] search_lead_in = Returned (sources, reasoning) →
    (∃ more, reasoning = search_lead_in ++ more)
    ∧ length sources ≤ 3 ∧ Forall valid_url sources).
  { intros items Hlen (urls & more & -> & -> & Hall)%collect_returned.
    split; [by eexists|]. simpl. split.
    - by rewrite <-(Forall2_length _ _ _ Hall).
    - by eapply Forall2_item_url_valid. }
  destruct (default (JArr []) (d !! Py.codes "items")) as [| | | |s|l|d'];
    simpl; try done; apply Hloop.
  - rewrite length_fmap, length_take. lia.
  - rewrite length_take. lia.
Qed.

(** A reply that counts as a failed search makes the block raise. *)
Lemma read_results_failed response :
  search_failed (Replied response) = true →
  ∃ e, read_results response = Raised e.
Proof.
  unfold search_failed, success_status, read_results, raise_for_status.
  case_bool_decide; simpl; [|intros _; by eexists].
  destruct (httpx.json response) as [data|]; simpl; [|intros _; by eexists].
  destruct data as [| | | | |l|d]; simpl; try (intros _; by eexists).
  destruct (d !! Py.codes "items") as [[| | | |s|l|d']|];
    simpl; try (intros _; by eexists); try done.
  - destruct s as [|c s]; [by case_bool_decide|]. intros _. by eexists.
  - intros Hbad.
    destruct (collect_bad (take 3 l) [] search_lead_in) as (e & -> & _);
      [|by eexists].
    apply Exists_exists. apply existsb_exists in Hbad as (item & Hin & Hitem).
    exists item. split; [by apply list_elem_of_In|].
    by apply bool_decide_eq_true in Hitem.
Qed.

(** A well-formed payload under a 2xx status makes the block return one
    validated link for each of the first three result items. *)
Lemma read_results_ok response data :
  success_status response = true →
  httpx.json response = Some data →
  malformed data = false →
  ∃ sources reasoning,
    read_results response = Returned (sources, reasoning)
    ∧ ∀ items, result_items data = Some items →
        Forall2 (λ item u, item_url item = Some u) (take 3 items) sources.
Proof.
  unfold success_status, read_results, raise_for_status.
  intros Hstatus -> Hdata. rewrite Hstatus. simpl.
  destruct data as [| | | | |l|d]; simpl in *; try done.
  destruct (d !! Py.codes "items") as [[| | | |s|l|d']|]; simpl; try done.
  - destruct s; [|by case_bool_decide]. simpl.
    eexists _, _. split; [done|]. done.
  - destruct (collect_ok (take 3 l) [] search_lead_in)
      as (urls & more & -> & Hurls).
    { apply Forall_forall. intros item Hin.
      destruct (item_url item) eqn:Hitem; [done|].
      assert (existsb (λ item, bool_decide (item_url item = None)) (take 3 l)
              = true) as Hbad; [|by rewrite Hbad in Hdata].
      apply existsb_exists. exists item.
      split; [by apply list_elem_of_In | by apply bool_decide_eq_true]. }
    eexists _, _. split; [done|]. by intros ? [= <-].
  - eexists _, _. split; [done|]. intros ? [= <-]. constructor.
Qed.

(** The run of [search_relevant_links], case by case. *)
Lemma search_relevant_links_run (query : pystr) (st : io) :
  search_relevant_links w query st =
  match http_get w GOOGLE_SEARCH_API_URL (search_params w query) with
  | Failed f =>
      if isinstance (Foreign f) Exception
      then (Returned ([], search_apology),
            printed search_error_prefix (Foreign f) st)
      else (Raised (Foreign f), st)
  | Replied response =>
      match read_results response with
      | Returned found => (Returned found, st)
      | Raised e =>
          (Returned ([], search_apology), printed search_error_prefix e st)
      end
  end.
Proof.
  unfold search_relevant_links, try_except.
  unfold mbind, IO_bind, ask, call.
  destruct (http_get w GOOGLE_SEARCH_API_URL (search_params w query))
    as [response|f]; simpl.
  - destruct (read_results response) as [found|e] eqn:E; [done|].
    simpl. by rewrite (read_results_raised _ _ E).
  - by destruct (isinstance (Foreign f) Exception).
Qed.

Lemma search_relevant_links_raised query st e st' :
  search_relevant_links w query st = (Raised e, st') →
  ∃ f, e = Foreign f ∧ isinstance e Exception = false ∧ st' = st.
Proof.
  rewrite search_relevant_links_run.
  destruct (http_get w GOOGLE_SEARCH_API_URL (search_params w query))
    as [response|f].
  - by destruct (read_results response).
  - destruct (isinstance (Foreign f) Exception) eqn:E; [done|].
    intros [= <- <-]. eauto.
Qed.

(** The first character tells the lead-in from the apology. *)
Lemma lead_in_not_apology more : search_lead_in ++ more ≠ search_apology.
Proof. by vm_compute. Qed.

(** Whatever [search_relevant_links] returns: at most three sources, all of
    them valid URLs, and none at all next to the apology. *)
Lemma search_relevant_links_returned query st sources reasoning st' :
  search_relevant_links w query st = (Returned (sources, reasoning), st') →
  length sources ≤ 3 ∧ Forall valid_url sources
  ∧ (reasoning = search_apology → sources = []).
Proof.
  rewrite search_relevant_links_run.
  assert (Hfallback : length ([] : list pystr) ≤ 3
    ∧ Forall valid_url [] ∧ (search_apology = search_apology → [] = @nil pystr)).
  { split_and!; [simpl; lia | constructor | done]. }
  destruct (http_get w GOOGLE_SEARCH_API_URL (search_params w query))
    as [response|f].
  - destruct (read_results response) as [[sources0 reasoning0]|e] eqn:E.
    + intros [= -> -> <-].
      apply read_results_returned in E as ([more ->] & Hlen & Hvalid).
      split_and!; [done..|]. by intros ?%lead_in_not_apology.
    + by intros [= <- <- <-].
  - destruct (isinstance (Foreign f) Exception); [|done].
    by intros [= <- <- <-].
Qed.

(** A failed search ends in the fallback, whatever the state. *)
Lemma search_failed_fallback query st :
  search_failed (http_get w GOOGLE_SEARCH_API_URL (search_params w query))
    = true →
  ∃ e, search_relevant_links w query st =
       (Returned ([], search_apology), printed search_error_prefix e st).
Proof.
  rewrite search_relevant_links_run.
  destruct (http_get w GOOGLE_SEARCH_API_URL (search_params w query))
    as [response|f].
  - intros [e ->]%read_results_failed. by eexists.
  - simpl. intros ->. by eexists.
Qed.

End retriever.

(** ** The request pipeline *)

Section pipeline.
Context `{Runtime} (w : world).

Lemma bind_returned {A B} (m : IO A) (f : A → IO B) st b st' :
  (m ≫= f) st = (Returned b, st') →
  ∃ a st1, m st = (Returned a, st1) ∧ f a st1 = (Returned b, st').
Proof.
  unfold mbind, IO_bind. destruct (m st) as [[a|e] st1]; [eauto | done].
Qed.

Lemma bind_raised {A B} (m : IO A) (f : A → IO B) st e st' :
  (m ≫= f) st = (Raised e, st') →
  m st = (Raised e, st')
  ∨ ∃ a st1, m st = (Returned a, st1) ∧ f a st1 = (Raised e, st').
Proof.
  unfold mbind, IO_bind. destruct (m st) as [[a|e0] st1]; [eauto|].
  intros [= <- <-]. by left.
Qed.

Lemma logger_write_returned lvl line st u st' :
  logger_write w lvl line st = (Returned u, st') →
  logger_call w (log_calls st) = None ∧ st' = logged lvl line st.
Proof.
  unfold logger_write. destruct (logger_call w (log_calls st)); [done|].
  by intros [= <-].
Qed.

Lemma logger_write_raised lvl line st e st' :
  logger_write w lvl line st = (Raised e, st') → ∃ f, e = Foreign f.
Proof.
  unfold logger_write. destruct (logger_call w (log_calls st)); [|done].
  intros [= <- <-]. eauto.
Qed.

Lemma logger_write_ok lvl line st :
  logger_call w (log_calls st) = None →
  logger_write w lvl line st = (Returned (), logged lvl line st).
Proof. unfold logger_write. by intros ->. Qed.

(** The answer does not depend on the state the resolver starts in. *)
Lemma get_correct_answer_fst query st st0 :
  fst (get_correct_answer w query st) = fst (get_correct_answer w query st0).
Proof.
  rewrite !get_correct_answer_run.
  destruct (chat_create w (completion_request query)) as [response|f].
  - destruct (response ≫= Together.choices) as [[|first rest]|]; [done| |done].
    by destruct (read_answer first).
  - by destruct (isinstance (Foreign f) Exception).
Qed.

(** What the [try] block of [predict] hands back: the request's [id], the
    resolver's integer and the retriever's pair. *)
Lemma predict_try_returned parsed st r st' :
  predict_try w parsed st = (Returned r, st') →
  schemas.id r = id parsed
  ∧ fst (get_correct_answer w (query parsed) io0)
    = Returned (Some (schemas.answer r))
  ∧ ∃ st1 st2, search_relevant_links w (query parsed) st1
               = (Returned (schemas.sources r, schemas.reasoning r), st2).
Proof.
  unfold predict_try.
  intros (_ & st1 & _ & (answer & st2 & Hanswer &
    ([sources reasoning] & st3 & Hsearch &
      (response & st4 & Hresponse & (_ & st5 & _ & Hret)%bind_returned
      )%bind_returned)%bind_returned)%bind_returned)%bind_returned.
  injection Hret as <- <-.
  unfold call, PredictionResponse in Hresponse.
  destruct (is_identifier (id parsed)); [|done].
  destruct answer as [z|]; [|done]. injection Hresponse as <- <-. simpl.
  split_and!; [done| |by eauto].
  by rewrite (get_correct_answer_fst _ io0 st1), Hanswer.
Qed.

(** What the [try] block raises: an exception out of a collaborator, or the
    schema's validation error. *)
Lemma predict_try_raised parsed st e st' :
  predict_try w parsed st = (Raised e, st') →
  (∃ f, e = Foreign f) ∨ (∃ v, e = ValidationError v).
Proof.
  unfold predict_try.
  intros [Hlog|(_ & st1 & _ & Hrest)]%bind_raised;
    [left; by eapply logger_write_raised|].
  apply bind_raised in Hrest as [Hanswer|(answer & st2 & _ & Hrest)].
  { apply get_correct_answer_raised in Hanswer as (f & -> & _). eauto. }
  apply bind_raised in Hrest
    as [Hsearch|([sources reasoning] & st3 & _ & Hrest)].
  { apply search_relevant_links_raised in Hsearch as (f & -> & _). eauto. }
  apply bind_raised in Hrest as [Hresponse|(response & st4 & _ & Hrest)].
  { right. unfold call, PredictionResponse in Hresponse.
    destruct (is_identifier (id parsed)); [|injection Hresponse; eauto].
    destruct answer; [done | injection Hresponse; eauto]. }
  apply bind_raised in Hrest as [Hlog|(_ & st5 & _ & Hret)]; [|done].
  left. by eapply logger_write_raised.
Qed.

(** [predict] returns exactly when its [try] block does. *)
Lemma predict_returned parsed st r st' :
  predict w parsed st = (Returned r, st') →
  predict_try w parsed st = (Returned r, st').
Proof.
  unfold predict, try_except.
  destruct (predict_try w parsed st) as [[r0|e] st1]; [done|].
  simpl. unfold mbind, IO_bind, logger_error, raise, call.
  destruct (isinstance e ValueError).
  - by destruct (logger_write w ERROR _ st1) as [[[]|e1] st2].
  - destruct (isinstance e Exception); [|done].
    by destruct (logger_write w ERROR _ st1) as [[[]|e1] st2].
Qed.

(** The two [except] clauses, when the error line can be written. *)
Lemma predict_value_error parsed st e st1 :
  predict_try w parsed st = (Raised e, st1) →
  isinstance e ValueError = true →
  logger_call w (log_calls st1) = None →
  predict w parsed st =
    (Raised (HTTPException 400 (StrOf e)),
     logged ERROR (ValidationFailure (id parsed) e) st1).
Proof.
  intros Htry Hcls Hlog. unfold predict, try_except. rewrite Htry. simpl.
  rewrite Hcls. unfold mbind, IO_bind, logger_error.
  by rewrite logger_write_ok.
Qed.

Lemma predict_internal_error parsed st e st1 :
  predict_try w parsed st = (Raised e, st1) →
  isinstance e ValueError = false →
  isinstance e Exception = true →
  logger_call w (log_calls st1) = None →
  predict w parsed st =
    (Raised (HTTPException 500 (Literal internal_server_error)),
     logged ERROR (InternalFailure (id parsed) e) st1).
Proof.
  intros Htry Hnot Hcls Hlog. unfold predict, try_except. rewrite Htry. simpl.
  rewrite Hnot, Hcls. unfold mbind, IO_bind, logger_error.
  by rewrite logger_write_ok.
Qed.

(** The only [HTTPException]s that leave [predict] are its own two. *)
Lemma predict_raised parsed st e st' :
  predict w parsed st = (Raised e, st') →
  (∃ f, e = Foreign f)
  ∨ (∃ e0, e = HTTPException 400 (StrOf e0))
  ∨ e = HTTPException 500 (Literal internal_server_error).
Proof.
  unfold predict, try_except.
  destruct (predict_try w parsed st) as [[r0|e0] st1] eqn:Htry; [done|].
  apply predict_try_raised in Htry. simpl.
  unfold mbind, IO_bind, logger_error, raise, call.
  destruct (isinstance e0 ValueError) eqn:Hcls.
  { destruct (logger_write w ERROR _ st1) as [[[]|e1] st2] eqn:Hlog.
    - intros [= <- <-]. eauto.
    - intros [= <- <-]. left. by eapply logger_write_raised. }
  destruct (isinstance e0 Exception).
  { destruct (logger_write w ERROR _ st1) as [[[]|e1] st2] eqn:Hlog.
    - intros [= <- <-]. eauto.
    - intros [= <- <-]. left. by eapply logger_write_raised. }
  intros [= <- <-]. destruct Htry as [?|[v ->]]; [by left | by vm_compute in Hcls].
Qed.

End pipeline.

(** ** The route and the middleware *)

Section http.
Context `{Runtime} (w : world).

(** A 200 of the route is a [PredictionResponse] that the [try] block of
    [predict] returned for the validated payload. *)
Lemma api_request_200 request st resp st' :
  api_request w request st = (Returned resp, st') →
  status_code resp = 200%Z →
  ∃ j parsed r,
    body request = Json j ∧ validate_request j = Some parsed
    ∧ content resp = PredictionBody r
    ∧ predict_try w parsed st = (Returned r, st').
Proof.
  unfold api_request.
  destruct (body request) as [|txt|j] eqn:Hbody; try by intros [= <- <-].
  destruct (validate_request j) as [parsed|] eqn:Hvalid;
    [|by intros [= <- <-]].
  destruct (predict w parsed st) as [[r|e] st1] eqn:Hpredict.
  - intros [= <- <-] _. apply predict_returned in Hpredict.
    by exists j, parsed, r.
  - apply predict_raised in Hpredict as [[f ->]|[[e0 ->]| ->]];
      [done | by intros [= <- <-].. ].
Qed.

(** The middleware hands on the reply of the route unchanged; to get there
    its two log lines had to be written. *)
Lemma log_requests_returned request call_next st resp st' :
  log_requests w request call_next st = (Returned resp, st') →
  ∃ st1 st2, call_next request st1 = (Returned resp, st2).
Proof.
  unfold log_requests.
  intros (p & st0 & _ & (_ & st1 & _ & (response & st2 & Hnext &
    (_ & st3 & _ & Hret)%bind_returned)%bind_returned)%bind_returned
    )%bind_returned.
  injection Hret as <- <-. exists st1, st2. by destruct response.
Qed.

Lemma log_requests_run request call_next st response st1 :
  decode (body request) = Returned (body request) →
  logger_call w (log_calls st) = None →
  call_next request
    (logged INFO (IncomingRequest (method request) (url request)
                    (body request)) st)
    = (Returned response, st1) →
  logger_call w (log_calls st1) = None →
  ∃ st', log_requests w request call_next st = (Returned response, st').
Proof.
  intros Hdecode Hin Hnext Hout. unfold log_requests, logger_info.
  io_step. unfold call. rewrite Hdecode.
  io_step. rewrite logger_write_ok by done.
  io_step. rewrite Hnext.
  io_step. rewrite logger_write_ok by done.
  destruct response. by eexists.
Qed.

Lemma app_200 request st resp st' :
  app w request st = (Returned resp, st') →
  status_code resp = 200%Z →
  ∃ j parsed r st1 st2,
    body request = Json j ∧ validate_request j = Some parsed
    ∧ content resp = PredictionBody r
    ∧ predict_try w parsed st1 = (Returned r, st2).
Proof.
  intros (st1 & st2 & Hroute)%log_requests_returned Hstatus.
  destruct (api_request_200 _ _ _ _ Hroute Hstatus)
    as (j & parsed & r & ? & ? & ? & ?).
  by exists j, parsed, r, st1, st2.
Qed.

(** An integer out of the resolver is the sentinel or was read off the last
    token of the first choice. *)
Lemma get_correct_answer_integer query z :
  fst (get_correct_answer w query io0) = Returned (Some z) →
  z = (-1)%Z
  ∨ ∃ response first rest s token,
      chat_create w (completion_request query) = Replied (Some response)
      ∧ Together.choices response = Some (first :: rest)
      ∧ first_content first = Some s
      ∧ spec_last_token s = Some token
      ∧ Py.int token = Some z.
Proof.
  rewrite get_correct_answer_run.
  destruct (chat_create w (completion_request query)) as [response|f].
  - destruct response as [response|]; simpl; [|done].
    destruct (Together.choices response) as [[|first rest]|] eqn:Hchoices;
      simpl; [done| |done].
    pose proof (read_answer_spec first) as Hspec.
    destruct (read_answer first) as [z0|e]; simpl; [|intros [= <-]; by left].
    intros [= ->]. right.
    destruct (first_content first) as [s|] eqn:Hs; simpl in Hspec;
      [|by destruct Hspec as (? & ? & ?)].
    destruct (spec_last_token s) as [token|] eqn:Htoken; simpl in Hspec;
      [|by destruct Hspec as (? & ? & ?)].
    destruct (Py.int token) as [z1|] eqn:Hint;
      [|by destruct Hspec as (? & ? & ?)].
    injection Hspec as <-. by exists response, first, rest, s, token.
  - destruct (isinstance (Foreign f) Exception); simpl; [|done].
    intros [= <-]. by left.
Qed.

End http.

(** ** Between the notions and the code *)

Section bridge.
Context `{Runtime} (w : world).



(** [HttpUrl] on the link of a result raises exactly where the result has no
    valid link. *)
Lemma HttpUrl_raised_item_url d e :
  HttpUrl (default JNull (d !! Py.codes "link")) = Raised e →
  item_url (JObj d) = None.
Proof.
  simpl. destruct (d !! Py.codes "link") as [[| | | |s| |]|]; try done.
  simpl. by destruct (validate_http_url s).
Qed.

Lemma malformed_intro data items :
  result_items data = Some items →
  Exists (λ item, item_url item = None) (take 3 items) →
  malformed data = true.
Proof.
  destruct data as [| | | | |l|d]; try done. simpl.
  destruct (d !! Py.codes "items") as [[| | | |s|l|d']|]; try done.
  - intros [= <-] (item & Hin & Hitem)%Exists_exists.
    apply existsb_exists. exists item.
    split; [by apply list_elem_of_In | by apply bool_decide_eq_true].
  - intros [= <-]. by intros ?%Exists_nil.
Qed.

Lemma malformed_elim data items :
  result_items data = Some items →
  malformed data = false →
  Forall (λ item, is_Some (item_url item)) (take 3 items).
Proof.
  intros Hitems Hdata. apply Forall_forall. intros item Hin.
  destruct (item_url item) eqn:Hitem; [done|].
  rewrite (malformed_intro data items) in Hdata; [done..|].
  apply Exists_exists. eauto.
Qed.



Lemma api_request_http_exception request j parsed st status detail st' :
  body request = Json j → validate_request j = Some parsed →
  predict w parsed st = (Raised (HTTPException status detail), st') →
  api_request w request st =
    (Returned {| status_code := status; content := DetailBody detail |}, st').
Proof. intros Hbody Hj Hpredict. unfold api_request. by rewrite Hbody, Hj, Hpredict. Qed.

Lemma decode_json request j :
  body request = Json j → decode (body request) = Returned (body request).
Proof. by intros ->. Qed.

End bridge.

(** * The claims *)

Section claims.
Context `{Runtime} (w : world).

(** C1 (amended): whenever the prediction endpoint answers a request with
    status 200, the [answer] field of the response is an integer that is
    either the sentinel -1 or the integer which the last whitespace-delimited
    token of the first choice's text parses to, whatever its value: the code
    does not confine it to 1..10. *)
Theorem answer_is_sentinel_or_parsed_token request st resp st' :
  app w request st = (Returned resp, st') →
  status_code resp = 200%Z →
  ∃ j parsed r,
    body request = Json j ∧ validate_request j = Some parsed
    ∧ content resp = PredictionBody r
    ∧ (schemas.answer r = (-1)%Z
       ∨ ∃ response first rest s token,
           chat_create w (completion_request (query parsed))
             = Replied (Some response)
           ∧ Together.choices response = Some (first :: rest)
           ∧ first_content first = Some s
           ∧ spec_last_token s = Some token
           ∧ Py.int token = Some (schemas.answer r)).
Proof.
  intros Happ Hstatus.
  destruct (app_200 w _ _ _ _ Happ Hstatus)
    as (j & parsed & r & st1 & st2 & Hbody & Hj & Hcontent & Htry).
  exists j, parsed, r. split_and!; [done..|].
  apply predict_try_returned in Htry as (_ & Hanswer & _).
  by apply get_correct_answer_integer.
Qed.

(** C2: where the completion API replies with an empty or absent choice
    list, [get_correct_answer] falls off its end and returns [None]; it does
    not return the sentinel -1. *)
Theorem empty_choices_fall_through query st response :
  chat_create w (completion_request query) = Replied response →
  default [] (response ≫= Together.choices) = [] →
  get_correct_answer w query st = (Returned None, st).
Proof.
  intros Hchat Hchoices. rewrite get_correct_answer_run, Hchat.
  by destruct (response ≫= Together.choices) as [[|first rest]|].
Qed.

(** The failures of the resolver that do raise end in the sentinel: a failing
    SDK call, a missing message or text, a text without a token, a token that
    is no integer. *)
Lemma raised_resolution_gives_sentinel query st :
  match chat_create w (completion_request query) with
  | Failed f => isinstance (Foreign f) Exception = true
  | Replied response =>
      ∃ first rest,
        response ≫= Together.choices = Some (first :: rest)
        ∧ (first_content first ≫= spec_last_token) ≫= Py.int = None
  end →
  fst (get_correct_answer w query st) = Returned (Some (-1)%Z).
Proof.
  rewrite get_correct_answer_run.
  destruct (chat_create w (completion_request query)) as [response|f].
  - intros (first & rest & -> & Hnone).
    pose proof (read_answer_spec first) as Hspec. rewrite Hnone in Hspec.
    by destruct Hspec as (e & -> & _).
  - by intros ->.
Qed.

(** C3 (amended): every element placed in [sources] is a syntactically valid
    URL, and a URL-validation failure on one of the first three results is
    caught inside the retriever like any other error: the retriever returns
    the empty list with the apology, and nothing propagates. *)
Theorem url_failure_ends_in_fallback query st response data :
  http_get w GOOGLE_SEARCH_API_URL (search_params w query) = Replied response →
  success_status response = true →
  httpx.json response = Some data →
  ∃ sources reasoning st',
    search_relevant_links w query st = (Returned (sources, reasoning), st')
    ∧ Forall valid_url sources
    ∧ ∀ items i d e,
        result_items data = Some items →
        i < 3 → items !! i = Some (JObj d) →
        HttpUrl (default JNull (d !! Py.codes "link")) = Raised e →
        sources = [] ∧ reasoning = search_apology.
Proof.
  intros Hget Hstatus Hjson.
  destruct (search_relevant_links w query st) as [[[sources reasoning]|e] st']
    eqn:Hrun.
  2: { rewrite search_relevant_links_run, Hget in Hrun.
       by destruct (read_results response). }
  exists sources, reasoning, st'. split; [done|].
  pose proof (search_relevant_links_returned w _ _ _ _ _ Hrun)
    as (_ & Hvalid & _).
  split; [done|]. intros items i d e Hitems Hi Hlookup Hurl.
  assert (search_failed (http_get w GOOGLE_SEARCH_API_URL
                           (search_params w query)) = true) as Hfailed.
  { rewrite Hget. simpl. rewrite Hstatus, Hjson. simpl.
    apply (malformed_intro data items Hitems), Exists_exists.
    exists (JObj d). split; [|by eapply HttpUrl_raised_item_url].
    apply list_elem_of_lookup. exists i. by rewrite lookup_take_lt. }
  destruct (search_failed_fallback w query st Hfailed) as [e' Hfallback].
  rewrite Hfallback in Hrun. by injection Hrun as <- <- _.
Qed.


(** C5: whenever the completion API returns a non-empty choice list, the
    resolved answer is the integer parse of the last whitespace-delimited
    token of the first choice's message content, and it is -1 where that
    token does not parse as an integer (or the content has no token). *)
Theorem answer_is_int_of_last_token query st response first rest :
  chat_create w (completion_request query) = Replied (Some response) →
  Together.choices response = Some (first :: rest) →
  fst (get_correct_answer w query st) =
  Returned
    (Some (default (-1)%Z
             ((first_content first ≫= spec_last_token) ≫= Py.int))).
Proof.
  intros Hchat Hchoices. rewrite get_correct_answer_run, Hchat. simpl.
  rewrite Hchoices. pose proof (read_answer_spec first) as Hspec.
  destruct ((first_content first ≫= spec_last_token) ≫= Py.int) as [z|].
  - by rewrite Hspec.
  - by destruct Hspec as (e & -> & _).
Qed.


(** C7: for every valid request that produces a 200 response, the [id] field
    of the [PredictionResponse] is the [id] field of the incoming
    [PredictionRequest]. *)
Theorem response_id_is_request_id request j parsed st resp st' :
  body request = Json j →
  validate_request j = Some parsed →
  app w request st = (Returned resp, st') →
  status_code resp = 200%Z →
  ∃ r, content resp = PredictionBody r ∧ schemas.id r = id parsed.
Proof.
  intros Hbody Hj Happ Hstatus.
  destruct (app_200 w _ _ _ _ Happ Hstatus)
    as (j' & parsed' & r & st1 & st2 & Hbody' & Hj' & Hcontent & Htry).
  rewrite Hbody in Hbody'. injection Hbody' as <-.
  rewrite Hj in Hj'. injection Hj' as <-.
  exists r. split; [done|].
  by apply predict_try_returned in Htry as (? & _).
Qed.

(** C8 (amended): for every search API payload, whatever the number of its
    result items, the returned [sources] list has at most 3 elements and
    every element is a syntactically valid URL; the list holds one entry for
    each of the first three result items, in order and without padding, when
    these all carry valid links, and it is empty when one of them does
    not. *)
Theorem sources_bounded_valid_unpadded query st response data :
  http_get w GOOGLE_SEARCH_API_URL (search_params w query) = Replied response →
  success_status response = true →
  httpx.json response = Some data →
  ∃ sources reasoning st',
    search_relevant_links w query st = (Returned (sources, reasoning), st')
    ∧ length sources ≤ 3
    ∧ Forall valid_url sources
    ∧ ∀ items,
        result_items data = Some items →
        (Forall (λ item, is_Some (item_url item)) (take 3 items) →
         Forall2 (λ item u, item_url item = Some u) (take 3 items) sources
         ∧ length sources = length items `min` 3)
        ∧ (Exists (λ item, item_url item = None) (take 3 items) →
           sources = []).
Proof.
  intros Hget Hstatus Hjson.
  destruct (search_relevant_links w query st) as [[[sources reasoning]|e] st']
    eqn:Hrun.
  2: { rewrite search_relevant_links_run, Hget in Hrun.
       by destruct (read_results response). }
  exists sources, reasoning, st'. split; [done|].
  pose proof (search_relevant_links_returned w _ _ _ _ _ Hrun)
    as (Hlen & Hvalid & _).
  split_and!; [done..|]. intros items Hitems. split; [intros Hall|intros Hbad].
  2: { assert (search_failed (http_get w GOOGLE_SEARCH_API_URL
                                (search_params w query)) = true) as Hfailed.
       { rewrite Hget. simpl. rewrite Hstatus, Hjson. simpl.
         by apply (malformed_intro data items). }
       destruct (search_failed_fallback w query st Hfailed) as [e Hfallback].
       rewrite Hfallback in Hrun. by injection Hrun as <- _ _. }
  destruct (malformed data) eqn:Hdata.
  { destruct data as [| | | | |l|d]; try done. simpl in *.
    destruct (d !! Py.codes "items") as [[| | | |s|l|d']|]; try done.
    injection Hitems as <-.
    apply existsb_exists in Hdata as (item & Hin%list_elem_of_In & Hnone).
    apply bool_decide_eq_true in Hnone.
    rewrite Forall_forall in Hall. specialize (Hall item Hin).
    rewrite Hnone in Hall. by destruct Hall. }
  destruct (read_results_ok response data Hstatus Hjson Hdata)
    as (sources0 & reasoning0 & Hread & Hone).
  rewrite search_relevant_links_run, Hget, Hread in Hrun.
  injection Hrun as <- <- <-.
  specialize (Hone items Hitems). split; [done|].
  rewrite <-(Forall2_length _ _ _ Hone), length_take. lia.
Qed.

(** C9 (amended): an exception of class [Exception] raised in the handler's
    [try] block -- which includes a logger failure there -- yields, when the
    log lines that follow can be written, an HTTP 500 whose body is exactly
    [{"detail": "Internal server error"}] without the exception's text,
    unless the exception is a [ValueError]: then the reply is an HTTP 400
    whose detail is the exception's text. *)
Theorem handler_exception_reply request j parsed st e st1 :
  body request = Json j →
  validate_request j = Some parsed →
  logger_call w (log_calls st) = None →
  predict_try w parsed
    (logged INFO (IncomingRequest (method request) (url request)
                    (body request)) st) = (Raised e, st1) →
  isinstance e Exception = true →
  logger_call w (log_calls st1) = None →
  logger_call w (S (log_calls st1)) = None →
  ∃ st', app w request st =
    (Returned
       (if isinstance e ValueError
        then {| status_code := 400; content := DetailBody (StrOf e) |}
        else {| status_code := 500;
                content := DetailBody (Literal internal_server_error) |}),
     st').
Proof.
  intros Hbody Hj Hlog0 Htry Hcls Hlog1 Hlog2. unfold app.
  destruct (isinstance e ValueError) eqn:Hvalue.
  - eapply log_requests_run; [by eapply decode_json | done | | ].
    + eapply api_request_http_exception; [done..|].
      by apply predict_value_error.
    + done.
  - eapply log_requests_run; [by eapply decode_json | done | | ].
    + eapply api_request_http_exception; [done..|].
      by apply predict_internal_error.
    + done.
Qed.

(** C10: evidence retrieval is all-or-nothing. If one of the first three
    result items fails to process after earlier items were validated, the
    sources built so far are dropped and the function returns exactly the
    empty list with the fixed apology; and in no run does the apology come
    with a non-empty sources list. *)
Theorem retrieval_is_all_or_nothing query st response data good bad rest :
  http_get w GOOGLE_SEARCH_API_URL (search_params w query) = Replied response →
  success_status response = true →
  httpx.json response = Some data →
  result_items data = Some (good ++ bad :: rest) →
  length good < 3 →
  Forall (λ item, is_Some (item_url item)) good →
  item_url bad = None →
  (∃ e, search_relevant_links w query st =
     (Returned ([], search_apology), printed search_error_prefix e st))
  ∧ ∀ st0 sources st',
      search_relevant_links w query st0
        = (Returned (sources, search_apology), st') →
      sources = [].
Proof.
  intros Hget Hstatus Hjson Hitems Hlen _ Hbad. split.
  - apply search_failed_fallback. rewrite Hget. simpl.
    rewrite Hstatus, Hjson. simpl.
    apply (malformed_intro data _ Hitems), Exists_exists.
    exists bad. split; [|done].
    apply list_elem_of_lookup. exists (length good).
    rewrite lookup_take_lt by done. by apply list_lookup_middle.
  - intros st0 sources st' Hrun.
    by apply search_relevant_links_returned in Hrun as (_ & _ & ->).
Qed.

End claims.

(** * Runs on concrete surroundings *)

Section runs.
#[local] Existing Instance sample_runtime.

(** Small runs of the builtins. *)
Example int_examples :
  Py.int (Py.codes "42") = Some 42%Z
  ∧ Py.int (Py.codes "-7") = Some (-7)%Z
  ∧ Py.int (Py.codes "1_000") = Some 1000%Z
  ∧ Py.int [0x663%N] = Some 3%Z
  ∧ Py.int (Py.codes "3.") = None
  ∧ Py.int (Py.codes "_1") = None
  ∧ Py.int (Py.codes "1__0") = None
  ∧ Py.int (Py.codes "") = None.
Proof. repeat split; reflexivity. Qed.

Example split_example :
  Py.split (Py.strip (Py.codes "  the answer is   3 ")) =
  Py.codes <$> ["the"; "answer"; "is"; "3"]%string.
Proof. reflexivity. Qed.

Example text_example : Py.text "Не" = [1053%N; 1077%N].
Proof. reflexivity. Qed.

(** The model ends its reply with "42": the endpoint answers 200 with
    [answer] 42, which is neither in 1..10 nor -1. *)
Lemma answer_outside_one_to_ten :
  ∃ r st',
    app world_42 (post question) io0
      = (Returned {| status_code := 200; content := PredictionBody r |}, st')
    ∧ schemas.answer r = 42%Z
    ∧ ¬ ((1 ≤ schemas.answer r ≤ 10)%Z ∨ schemas.answer r = (-1)%Z).
Proof.
  eexists _, _. split; [vm_compute; reflexivity|].
  split; [reflexivity|]. simpl. lia.
Qed.

Lemma answer_is_sentinel_or_parsed_token_witness :
  ∃ resp st',
    app world_ok (post question) io0 = (Returned resp, st')
    ∧ status_code resp = 200%Z
    ∧ ∃ j parsed r,
        body (post question) = Json j ∧ validate_request j = Some parsed
        ∧ content resp = PredictionBody r
        ∧ (schemas.answer r = (-1)%Z
           ∨ ∃ response first rest s token,
               chat_create world_ok (completion_request (query parsed))
                 = Replied (Some response)
               ∧ Together.choices response = Some (first :: rest)
               ∧ first_content first = Some s
               ∧ spec_last_token s = Some token
               ∧ Py.int token = Some (schemas.answer r)).
Proof.
  eexists _, _. split; [vm_compute; reflexivity|].
  split; [reflexivity|].
  eapply (answer_is_sentinel_or_parsed_token world_ok (post question) io0);
    [vm_compute; reflexivity | reflexivity].
Defined.

Lemma empty_choices_fall_through_witness :
  chat_create world_no_choices (completion_request sample_query)
    = Replied (Some {| Together.choices := Some [] |})
  ∧ default [] (Some {| Together.choices := Some [] |} ≫= Together.choices)
    = []
  ∧ get_correct_answer world_no_choices sample_query io0 = (Returned None, io0).
Proof.
  split; [reflexivity|]. split; [reflexivity|].
  eapply (empty_choices_fall_through world_no_choices sample_query io0
           (Some {| Together.choices := Some [] |})); reflexivity.
Defined.

(** The second of three results carries "not a url": the validation raises,
    and the retriever returns the fallback instead of raising. *)
Lemma invalid_url_does_not_propagate :
  HttpUrl (JStr (Py.codes "not a url"))
    = Raised (ValidationError (JStr (Py.codes "not a url")))
  ∧ fst (search_relevant_links world_bad_link sample_query io0)
    = Returned ([], search_apology).
Proof. split; vm_compute; reflexivity. Qed.

Lemma url_failure_ends_in_fallback_witness :
  ∃ response data,
    http_get world_bad_link GOOGLE_SEARCH_API_URL
      (search_params world_bad_link sample_query) = Replied response
    ∧ success_status response = true
    ∧ httpx.json response = Some data
    ∧ ∃ sources reasoning st',
        search_relevant_links world_bad_link sample_query io0
          = (Returned (sources, reasoning), st')
        ∧ Forall valid_url sources
        ∧ ∀ items i d e,
            result_items data = Some items →
            i < 3 → items !! i = Some (JObj d) →
            HttpUrl (default JNull (d !! Py.codes "link")) = Raised e →
            sources = [] ∧ reasoning = search_apology.
Proof.
  eexists _, _. split; [reflexivity|]. split; [reflexivity|].
  split; [reflexivity|].
  eapply (url_failure_ends_in_fallback world_bad_link sample_query io0);
    reflexivity.
Defined.



Lemma answer_is_int_of_last_token_witness :
  ∃ response first rest,
    chat_create world_ok (completion_request sample_query)
      = Replied (Some response)
    ∧ Together.choices response = Some (first :: rest)
    ∧ fst (get_correct_answer world_ok sample_query io0) =
      Returned
        (Some (default (-1)%Z
                 ((first_content first ≫= spec_last_token) ≫= Py.int)))
    ∧ (first_content first ≫= spec_last_token) ≫= Py.int = Some 2%Z.
Proof.
  eexists _, _, _. split; [reflexivity|]. split; [reflexivity|].
  split; [|vm_compute; reflexivity].
  eapply (answer_is_int_of_last_token world_ok sample_query io0); reflexivity.
Defined.


Lemma response_id_is_request_id_witness :
  ∃ parsed resp st',
    body (post question) = Json question
    ∧ validate_request question = Some parsed
    ∧ app world_ok (post question) io0 = (Returned resp, st')
    ∧ status_code resp = 200%Z
    ∧ id parsed = JInt 7
    ∧ ∃ r, content resp = PredictionBody r ∧ schemas.id r = id parsed.
Proof.
  eexists _, _, _. split; [reflexivity|]. split; [vm_compute; reflexivity|].
  split; [vm_compute; reflexivity|]. split; [reflexivity|].
  split; [reflexivity|].
  eapply (response_id_is_request_id world_ok (post question) question _ io0);
    [reflexivity | vm_compute; reflexivity | vm_compute; reflexivity
    | reflexivity].
Defined.

Lemma sources_bounded_valid_unpadded_witness :
  ∃ response data,
    http_get world_ok GOOGLE_SEARCH_API_URL
      (search_params world_ok sample_query) = Replied response
    ∧ success_status response = true
    ∧ httpx.json response = Some data
    ∧ result_items data = Some itmo_results
    ∧ ∃ sources reasoning st',
        search_relevant_links world_ok sample_query io0
          = (Returned (sources, reasoning), st')
        ∧ length sources ≤ 3
        ∧ Forall valid_url sources
        ∧ ∀ items,
            result_items data = Some items →
            (Forall (λ item, is_Some (item_url item)) (take 3 items) →
             Forall2 (λ item u, item_url item = Some u) (take 3 items) sources
             ∧ length sources = length items `min` 3)
            ∧ (Exists (λ item, item_url item = None) (take 3 items) →
               sources = []).
Proof.
  eexists _, _. split; [reflexivity|]. split; [reflexivity|].
  split; [reflexivity|]. split; [vm_compute; reflexivity|].
  eapply (sources_bounded_valid_unpadded world_ok sample_query io0);
    reflexivity.
Defined.

(** Three results, the second without a valid link: the first was consumed
    and validated, yet the list that comes back is empty, not one entry per
    consumed item. *)
Lemma invalid_item_empties_sources :
  ∃ response data items sources,
    http_get world_bad_link GOOGLE_SEARCH_API_URL
      (search_params world_bad_link sample_query) = Replied response
    ∧ httpx.json response = Some data
    ∧ result_items data = Some items
    ∧ length items = 3
    ∧ is_Some (items !! 0 ≫= item_url)
    ∧ fst (search_relevant_links world_bad_link sample_query io0)
      = Returned (sources, search_apology)
    ∧ length sources = 0
    ∧ length sources ≠ length items `min` 3.
Proof.
  eexists _, _, _, _. split; [reflexivity|]. split; [reflexivity|].
  split; [vm_compute; reflexivity|]. split; [reflexivity|].
  split; [vm_compute; eauto|]. split; [vm_compute; reflexivity|].
  split; [reflexivity|]. simpl. lia.
Qed.


(** The logger raises a [ValueError] on the handler's first line: the
    endpoint answers 400, and the detail is the text of that exception. *)
Lemma logger_failure_answers_400_with_its_text :
  ∃ st',
    app world_logger_closed (post question) io0 =
    (Returned {| status_code := 400;
                 content := DetailBody (StrOf (Foreign closed_file)) |}, st').
Proof. eexists. vm_compute. reflexivity. Qed.

(** With empty choices the [None] of the resolver fails the response schema,
    and the endpoint answers 400 for what was an upstream failure. *)
Lemma empty_choices_answer_400 :
  ∃ st',
    app world_no_choices (post question) io0 =
    (Returned {| status_code := 400;
                 content := DetailBody (StrOf (ValidationError JNull)) |},
     st').
Proof. eexists. vm_compute. reflexivity. Qed.

(** Without a logger the middleware's first line already raises, and the
    exception leaves the application. *)
Lemma missing_logger_escapes :
  fst (app world_no_logger (post question) io0)
  = Raised (Foreign logger_is_None).
Proof. vm_compute. reflexivity. Qed.

Lemma handler_exception_reply_witness :
  ∃ parsed st1,
    body (post question) = Json question
    ∧ validate_request question = Some parsed
    ∧ logger_call world_logger_hiccup (log_calls io0) = None
    ∧ predict_try world_logger_hiccup parsed
        (logged INFO (IncomingRequest (method (post question))
                        (url (post question)) (body (post question))) io0)
      = (Raised (Foreign disk_full), st1)
    ∧ isinstance (Foreign disk_full) Exception = true
    ∧ logger_call world_logger_hiccup (log_calls st1) = None
    ∧ logger_call world_logger_hiccup (S (log_calls st1)) = None
    ∧ ∃ st', app world_logger_hiccup (post question) io0 =
        (Returned {| status_code := 500;
                     content := DetailBody (Literal internal_server_error) |},
         st').
Proof.
  eexists _, _. split; [reflexivity|]. split; [vm_compute; reflexivity|].
  split; [reflexivity|]. split; [vm_compute; reflexivity|].
  split; [reflexivity|]. split; [reflexivity|]. split; [reflexivity|].
  eapply (handler_exception_reply world_logger_hiccup (post question)
           question _ io0 (Foreign disk_full));
    [reflexivity | vm_compute; reflexivity | reflexivity
    | vm_compute; reflexivity | reflexivity | reflexivity | reflexivity].
Defined.

Lemma retrieval_is_all_or_nothing_witness :
  ∃ response data,
    http_get world_bad_link GOOGLE_SEARCH_API_URL
      (search_params world_bad_link sample_query) = Replied response
    ∧ success_status response = true
    ∧ httpx.json response = Some data
    ∧ result_items data =
        Some ([search_result "ITMO" "https://itmo.ru"]
              ++ search_result "Broken" "not a url"
              :: [search_result "News" "https://news.itmo.ru"])
    ∧ length [search_result "ITMO" "https://itmo.ru"] < 3
    ∧ Forall (λ item, is_Some (item_url item))
        [search_result "ITMO" "https://itmo.ru"]
    ∧ item_url (search_result "Broken" "not a url") = None
    ∧ (∃ e, search_relevant_links world_bad_link sample_query io0 =
         (Returned ([], search_apology), printed search_error_prefix e io0))
    ∧ ∀ st0 sources st',
        search_relevant_links world_bad_link sample_query st0
          = (Returned (sources, search_apology), st') →
        sources = [].
Proof.
  assert (Hgood : Forall (λ item, is_Some (item_url item))
                    [search_result "ITMO" "https://itmo.ru"]).
  { constructor; [|constructor]. vm_compute. eauto. }
  eexists _, _. split; [reflexivity|]. split; [reflexivity|].
  split; [reflexivity|]. split; [vm_compute; reflexivity|].
  split; [simpl; lia|]. split; [exact Hgood|].
  split; [vm_compute; reflexivity|].
  eapply (retrieval_is_all_or_nothing world_bad_link sample_query io0 _ _
           [search_result "ITMO" "https://itmo.ru"]
           (search_result "Broken" "not a url")
           [search_result "News" "https://news.itmo.ru"]);
    [reflexivity | reflexivity | reflexivity | vm_compute; reflexivity
    | simpl; lia | exact Hgood | vm_compute; reflexivity].
Defined.

End runs.

(** * Further properties of the code *)

(** ** More on strings and [int] *)

Section more_strings.
Import Py.

(** A whitespace at the end starts no token. *)
Lemma split_from_snoc_space (s word : pystr) (c : N) :
  isspace c = true → split_from word (s ++ [c]) = split_from word s.
Proof.
  intros Hc. revert word. induction s as [|x s IH]; intros word; simpl.
  - rewrite Hc. simpl. by rewrite app_nil_r.
  - destruct (isspace x); by rewrite IH.
Qed.

Lemma split_from_rstrip (s word : pystr) :
  split_from word (rstrip s) = split_from word s.
Proof.
  unfold rstrip. rewrite <-(reverse_involutive s) at 2.
  induction (reverse s) as [|c r IH]; simpl; [done|].
  destruct (isspace c) eqn:Hc; [|done].
  by rewrite reverse_cons, split_from_snoc_space.
Qed.

Lemma split_lstrip (s : pystr) : split (lstrip s) = split s.
Proof.
  unfold split, lstrip. induction s as [|c s IH]; simpl; [done|].
  destruct (isspace c) eqn:Hc; simpl; [done | by rewrite Hc].
Qed.

(** X1: the [strip()] in front of [split()] changes nothing: the tokens of
    [content.strip().split()] are those of [content.split()]. *)
Theorem split_ignores_strip (s : pystr) : split (strip s) = split s.
Proof.
  unfold strip, split. rewrite split_from_rstrip. apply split_lstrip.
Qed.

Lemma take_while_Forall {A} (p : A → bool) (l : list A) :
  Forall (λ x, p x = true) (take_while p l).
Proof.
  induction l as [|x l IH]; simpl; [constructor|].
  destruct (p x) eqn:E; by constructor.
Qed.

Lemma drop_while_head {A} (p : A → bool) (l : list A) x r :
  drop_while p l = x :: r → p x = false.
Proof.
  induction l as [|y l IH]; simpl; [done|].
  destruct (p y) eqn:E; [done|]. by intros [= <- <-].
Qed.

Lemma spec_last_token_shape (s t : pystr) :
  spec_last_token s = Some t →
  t ≠ [] ∧ Forall (λ c, isspace c = false) t.
Proof.
  unfold spec_last_token.
  destruct (drop_while isspace (reverse s)) as [|x r] eqn:E; [done|].
  intros [= <-]. apply drop_while_head in E. split.
  - simpl. rewrite E. simpl. rewrite reverse_cons. by destruct (reverse _).
  - apply Forall_reverse.
    eapply Forall_impl;
      [apply (take_while_Forall (λ c, negb (isspace c)) (x :: r))|].
    intros c. simpl. by destruct (isspace c).
Qed.

(** X2: the token that [get_correct_answer] hands to [int] is never empty
    and contains no whitespace. *)
Theorem last_token_is_a_word (s t : pystr) :
  last (split (strip s)) = Some t →
  t ≠ [] ∧ Forall (λ c, isspace c = false) t.
Proof.
  rewrite last_split_strip. unfold spec_last_token.
  destruct (drop_while isspace (reverse s)) as [|x r] eqn:E; [done|].
  intros [= <-]. apply drop_while_head in E. split.
  - simpl. rewrite E. simpl. rewrite reverse_cons. by destruct (reverse _).
  - apply Forall_reverse.
    eapply Forall_impl;
      [apply (take_while_Forall (λ c, negb (isspace c)) (x :: r))|].
    intros c. simpl. by destruct (isspace c).
Qed.

End more_strings.
Section more_int.
Import Py.
Context `{Runtime}.
Local Open Scope N_scope.

Lemma parse_decimal_eq (s : pystr) :
  parse_decimal s =
  let s1 := drop_while c_isspace s in
  let negative := begins 0x2D s1 in
  let s2 := if begins 0x2B s1 || negative then tail s1 else s1 in
  if begins 0x5F s2 then None
  else
    '(ndigits, value, rest) ← scan_digits false 0 0 s2;
    if (ndigits =? 0)%nat then None
    else if over_limit ndigits then None
    else match drop_while c_isspace rest with
         | [] => Some (if negative then (- value)%Z else value)
         | _ => None
         end.
Proof.
  unfold parse_decimal.
  destruct (drop_while c_isspace s) as [|x t]; [reflexivity|].
  unfold begins.
  destruct x as [|p]; [reflexivity|].
  do 7 (try (destruct p as [p|p|]; try reflexivity)).
  all: cbn [N.eqb Pos.eqb orb tail].
  all: destruct t as [|y t]; [reflexivity|].
  all: destruct y as [|q]; [reflexivity|].
  all: do 7 (try (destruct q as [q|q|]; try reflexivity)).
Qed.

Lemma drop_while_snoc {A} (p : A → bool) (l : list A) (x : A) :
  p x = false → drop_while p (l ++ [x]) = drop_while p l ++ [x].
Proof.
  intros Hx. rewrite drop_while_app. simpl. rewrite Hx.
  by destruct (drop_while p l).
Qed.

(** The scan stops in front of a last character that is no digit, or
    fails. *)
Lemma scan_digits_snoc (k : pystr) (c : N) after_us ndigits acc :
  c_isdigit c = false →
  scan_digits after_us ndigits acc (k ++ [c]) = None
  ∨ ∃ n v rest, scan_digits after_us ndigits acc (k ++ [c])
                = Some (n, v, rest ++ [c]).
Proof.
  intros Hc. revert after_us ndigits acc.
  induction k as [|x k IH]; intros after_us ndigits acc; simpl.
  - rewrite Hc. destruct (c =? 0x5F), after_us; simpl; eauto.
    right. by exists ndigits, acc, [].
  - destruct (c_isdigit x); [apply IH|].
    destruct (x =? 0x5F), after_us; eauto.
    right. by exists ndigits, acc, (x :: k).
Qed.

Lemma parse_decimal_snoc (k : pystr) (c : N) :
  c_isdigit c = false → c_isspace c = false →
  parse_decimal (k ++ [c]) = None.
Proof.
  intros Hdigit Hspace. rewrite parse_decimal_eq. cbv zeta.
  rewrite drop_while_snoc by done.
  set (s1 := drop_while c_isspace k ++ [c]).
  destruct (begins 0x5F _) eqn:Hus; [done|].
  assert (Hs2 : (if begins 0x2B s1 || begins 0x2D s1 then tail s1 else s1)
                = [] ∨ ∃ k', (if begins 0x2B s1 || begins 0x2D s1
                              then tail s1 else s1) = k' ++ [c]).
  { subst s1. destruct (drop_while c_isspace k) as [|x k']; simpl.
    - destruct (_ || _); [by left | right; by exists []].
    - destruct (_ || _); right; [by exists k' | by exists (x :: k')]. }
  destruct Hs2 as [-> | [k' ->]]; [done|].
  destruct (scan_digits_snoc k' c false 0%nat 0%Z Hdigit)
    as [-> | (n & v & rest & ->)]; [done|]. simpl.
  destruct (n =? 0)%nat; [done|]. destruct (over_limit n); [done|].
  rewrite drop_while_snoc by done. by destruct (drop_while c_isspace rest).
Qed.

Lemma c_isspace_isspace (c : N) : c_isspace c = true → isspace c = true.
Proof.
  unfold c_isspace, isspace.
  intros [[H1 H2]%andb_prop | H1]%orb_prop.
  - by rewrite H1, H2.
  - apply N.eqb_eq in H1 as ->. reflexivity.
Qed.

(** [int] refuses a text that ends with an ASCII character other than a
    digit or a whitespace. *)
Lemma int_snoc (t : pystr) (c : N) :
  c < 127 → c_isdigit c = false → isspace c = false →
  int (t ++ [c]) = None.
Proof.
  intros Hascii Hdigit Hspace. unfold int.
  destruct (mapM to_ascii (t ++ [c])) as [k|] eqn:Hk; [|done]. simpl.
  apply mapM_Some in Hk.
  apply Forall2_app_inv_l in Hk as (k1 & k2 & _ & Hc & ->).
  apply Forall2_cons_inv_l in Hc as (c' & k3 & Hc & ->%Forall2_nil_inv_l & ->).
  unfold to_ascii in Hc. apply N.ltb_lt in Hascii. rewrite Hascii in Hc.
  injection Hc as <-. apply parse_decimal_snoc; [done|].
  destruct (c_isspace c) eqn:E; [|done].
  apply c_isspace_isspace in E. congruence.
Qed.

Lemma scan_digits_all (ds : pystr) ndigits acc :
  Forall (λ c, c_isdigit c = true) ds →
  scan_digits false ndigits acc ds =
  Some ((ndigits + length ds)%nat,
        fold_left (λ acc c, (10 * acc + Z.of_N (c - 0x30))%Z) ds acc, []).
Proof.
  intros Hds. revert ndigits acc.
  induction Hds as [|c ds Hc _ IH]; intros ndigits acc; simpl.
  - by rewrite Nat.add_0_r.
  - rewrite Hc, IH. do 3 f_equal. lia.
Qed.

Lemma digit_facts (c : N) :
  c_isdigit c = true →
  c < 127 ∧ c_isspace c = false ∧ c ≠ 0x2B ∧ c ≠ 0x2D ∧ c ≠ 0x5F.
Proof.
  unfold c_isdigit, c_isspace.
  intros [H1%N.leb_le H2%N.leb_le]%andb_prop. split_and!; [lia| |lia..].
  apply orb_false_intro;
    [apply andb_false_intro2, N.leb_gt | apply N.eqb_neq]; lia.
Qed.

(** [int] on a non-empty string of ASCII digits within the digit limit is
    its base 10 value. *)
Lemma int_digits (ds : pystr) :
  ds ≠ [] →
  Forall (λ c, c_isdigit c = true) ds →
  (int_max_str_digits = 0 ∨ length ds ≤ int_max_str_digits)%nat →
  int ds = Some (decimal_value ds).
Proof.
  intros Hne Hds Hlimit. unfold int.
  assert (mapM to_ascii ds = Some ds) as ->.
  { apply mapM_Some. apply Forall2_same_length_lookup.
    split; [done|]. intros i x y Hx Hy. rewrite Hx in Hy. injection Hy as <-.
    rewrite Forall_lookup in Hds. apply Hds, digit_facts in Hx as (Hx & _).
    unfold to_ascii. apply N.ltb_lt in Hx. by rewrite Hx. }
  simpl. rewrite parse_decimal_eq. cbv zeta.
  destruct ds as [|c ds]; [done|].
  pose proof (Forall_inv Hds) as Hc.
  apply digit_facts in Hc as (_ & Hspace & Hplus & Hminus & Hus).
  assert (drop_while c_isspace (c :: ds) = c :: ds) as ->
    by (simpl; by rewrite Hspace).
  apply N.eqb_neq in Hplus, Hminus, Hus.
  unfold begins. rewrite Hplus, Hminus. cbn [orb]. rewrite Hus.
  rewrite (scan_digits_all (c :: ds) 0 0 Hds).
  cbn [mbind option_bind Nat.add length Nat.eqb]. unfold over_limit.
  replace (_ && _) with false; [done|].
  symmetry. destruct Hlimit as [-> | Hlen]; [done|].
  apply andb_false_intro2, Nat.ltb_ge. simpl in Hlen. lia.
Qed.

End more_int.

(** ** More on the answer resolver *)

Section more_resolver.
Context `{Runtime} (w : world).

Lemma read_answer_token first s token :
  first_content first = Some s →
  last (Py.split (Py.strip s)) = Some token →
  read_answer first = or_raise (InvalidLiteral token) (Py.int token).
Proof.
  unfold first_content, read_answer.
  destruct (Together.message first) as [m|]; [|done].
  cbn [mbind option_bind]. intros Hs Htoken.
  unfold mbind, outcome_bind. cbn [or_raise]. rewrite Hs. cbn [or_raise].
  by rewrite Htoken.
Qed.

(** X3: when the last token of the reply ends with an ASCII character that
    is not a digit (a full stop, a bracket, a letter), [int] raises and
    [get_correct_answer] returns -1, printing one error line. *)
Theorem trailing_non_digit_gives_sentinel
    query st response first rest s t c :
  chat_create w (completion_request query) = Replied (Some response) →
  Together.choices response = Some (first :: rest) →
  first_content first = Some s →
  last (Py.split (Py.strip s)) = Some (t ++ [c]) →
  (c < 127)%N →
  Py.c_isdigit c = false →
  get_correct_answer w query st =
    (Returned (Some (-1)%Z),
     printed answer_error_prefix (InvalidLiteral (t ++ [c])) st).
Proof.
  intros Hchat Hchoices Hs Htoken Hascii Hdigit.
  rewrite get_correct_answer_run, Hchat. simpl. rewrite Hchoices.
  rewrite (read_answer_token first s _ Hs Htoken).
  rewrite int_snoc; [done..|].
  rewrite last_split_strip in Htoken.
  apply spec_last_token_shape in Htoken as [_ Hword].
  by apply Forall_app in Hword as [_ Hc%Forall_inv].
Qed.

(** X4: when the last token of the reply consists of ASCII digits only and
    is within the interpreter's digit limit, [get_correct_answer] returns the
    number the digits denote in base 10 and prints nothing. *)
Theorem digit_token_gives_its_value query st response first rest s ds :
  chat_create w (completion_request query) = Replied (Some response) →
  Together.choices response = Some (first :: rest) →
  first_content first = Some s →
  last (Py.split (Py.strip s)) = Some ds →
  Forall (λ c, Py.c_isdigit c = true) ds →
  int_max_str_digits = 0 ∨ length ds ≤ int_max_str_digits →
  get_correct_answer w query st = (Returned (Some (decimal_value ds)), st).
Proof.
  intros Hchat Hchoices Hs Htoken Hds Hlimit.
  rewrite get_correct_answer_run, Hchat. simpl. rewrite Hchoices.
  rewrite (read_answer_token first s _ Hs Htoken).
  rewrite int_digits; [done| |done..].
  rewrite last_split_strip in Htoken.
  by apply spec_last_token_shape in Htoken as [? _].
Qed.

(** X5: [get_correct_answer] never writes to the log; it leaves the state
    untouched, or it caught an [Exception], printed exactly one line and
    returned -1. *)
Theorem get_correct_answer_effects query st a st' :
  get_correct_answer w query st = (a, st') →
  log st' = log st ∧ log_calls st' = log_calls st
  ∧ (st' = st
     ∨ a = Returned (Some (-1)%Z)
       ∧ ∃ e, isinstance e Exception = true
              ∧ st' = printed answer_error_prefix e st).
Proof.
  rewrite get_correct_answer_run.
  destruct (chat_create w (completion_request query)) as [response|f].
  - destruct (response ≫= Together.choices) as [[|first rest]|];
      [by intros [= <- <-]; auto| |by intros [= <- <-]; auto].
    pose proof (read_answer_spec first) as Hspec.
    destruct (read_answer first) as [z|e]; intros [= <- <-]; [by auto|].
    split_and!; [done..|]. right. split; [done|]. exists e. split; [|done].
    destruct ((first_content first ≫= spec_last_token) ≫= Py.int);
      [done|]. by destruct Hspec as (e' & [= <-] & ?).
  - destruct (isinstance (Foreign f) Exception) eqn:E;
      intros [= <- <-]; [|by auto].
    split_and!; [done..|]. right. eauto.
Qed.

End more_resolver.

(** ** More on the evidence retriever *)

Section more_retriever.
Context `{Runtime} (w : world).

Lemma collect_cons_line item rest sources reasoning u :
  item_url item = Some u →
  collect (item :: rest) sources reasoning =
  collect rest (sources ++ [u]) (reasoning ++ result_line item).
Proof.
  destruct item as [| | | | |l|d]; try done.
  unfold item_url, result_line.
  destruct (d !! Py.codes "link") as [[| | | |s| |]|] eqn:Hlink; try done.
  intros Hu. simpl. rewrite Hlink. simpl. rewrite Hu. simpl.
  reflexivity.
Qed.

Lemma collect_lines items sources reasoning :
  Forall (λ item, is_Some (item_url item)) items →
  ∃ urls,
    collect items sources reasoning =
    Returned (sources ++ urls, reasoning ++ concat (result_line <$> items)).
Proof.
  intros Hall. revert sources reasoning.
  induction Hall as [|item rest [u Hitem] _ IH]; intros sources reasoning.
  - exists []. simpl. by rewrite !app_nil_r.
  - rewrite (collect_cons_line item rest sources reasoning u Hitem).
    destruct (IH (sources ++ [u]) (reasoning ++ result_line item))
      as [urls ->].
    exists (u :: urls). rewrite fmap_cons. cbn [concat].
    by rewrite <-!(assoc_L (++)).
Qed.

(** X6: when the first three results carry valid links, the reasoning is
    the lead-in followed by one line ["\n- {title}: {link}"] for each of
    them, in order; a fourth result has no part in it, and nothing is
    printed. *)
Theorem reasoning_lists_each_result query st response data items :
  http_get w GOOGLE_SEARCH_API_URL (search_params w query) = Replied response →
  success_status response = true →
  httpx.json response = Some data →
  result_items data = Some items →
  Forall (λ item, is_Some (item_url item)) (take 3 items) →
  ∃ sources,
    search_relevant_links w query st =
    (Returned (sources,
               search_lead_in ++ concat (result_line <$> take 3 items)),
     st).
Proof.
  intros Hget Hstatus Hjson Hitems Hall.
  rewrite search_relevant_links_run, Hget.
  unfold read_results, raise_for_status.
  unfold success_status in Hstatus. rewrite Hstatus, Hjson. simpl.
  destruct data as [| | | | |l|d]; try done. simpl in Hitems |- *.
  destruct (d !! Py.codes "items") as [[| | | |s|l|d']|]; try done;
    injection Hitems as <-; simpl.
  - destruct (collect_lines (take 3 l) [] search_lead_in Hall) as [urls ->].
    by exists urls.
  - exists []. cbn [take fmap list_fmap concat]. by rewrite ?app_nil_r.
Qed.

(** X7: a payload without the ["items"] key, or with an empty list under
    it, is no failure: the retriever returns no sources with the bare
    lead-in, not the apology, and prints nothing. *)
Theorem no_results_is_no_failure query st response d :
  http_get w GOOGLE_SEARCH_API_URL (search_params w query) = Replied response →
  success_status response = true →
  httpx.json response = Some (JObj d) →
  default (JArr []) (d !! Py.codes "items") = JArr [] →
  search_relevant_links w query st = (Returned ([], search_lead_in), st).
Proof.
  intros Hget Hstatus Hjson Hitems.
  rewrite search_relevant_links_run, Hget.
  unfold read_results, raise_for_status.
  unfold success_status in Hstatus. rewrite Hstatus, Hjson. simpl.
  by rewrite Hitems.
Qed.

Lemma search_relevant_links_cases query st a st' :
  search_relevant_links w query st = (a, st') →
  st' = st ∧ (∀ sources, a ≠ Returned (sources, search_apology))
  ∨ a = Returned ([], search_apology)
    ∧ ∃ e, isinstance e Exception = true
           ∧ st' = printed search_error_prefix e st.
Proof.
  rewrite search_relevant_links_run.
  destruct (http_get w GOOGLE_SEARCH_API_URL (search_params w query))
    as [response|f].
  - destruct (read_results response) as [[sources reasoning]|e] eqn:E;
      intros [= <- <-].
    + left. split; [done|]. intros sources' [= _ Heq].
      apply read_results_returned in E as ([more ->] & _).
      by apply lead_in_not_apology in Heq.
    + right. split; [done|]. exists e.
      split; [by eapply read_results_raised | done].
  - destruct (isinstance (Foreign f) Exception) eqn:E; intros [= <- <-].
    + right. eauto.
    + by left.
Qed.

(** X8: [search_relevant_links] never writes to the log, and it returns
    the apology exactly when it caught an [Exception] and printed one error
    line; otherwise the state is untouched. *)
Theorem search_relevant_links_effects query st a st' :
  search_relevant_links w query st = (a, st') →
  log st' = log st ∧ log_calls st' = log_calls st
  ∧ (st' = st ∧ (∀ sources, a ≠ Returned (sources, search_apology))
     ∨ a = Returned ([], search_apology)
       ∧ ∃ e, isinstance e Exception = true
              ∧ st' = printed search_error_prefix e st).
Proof.
  intros Hrun. pose proof (search_relevant_links_cases _ _ _ _ Hrun) as Hc.
  split_and!; [| |done];
    by destruct Hc as [[-> _]|(_ & e & _ & ->)].
Qed.

(** X9: an exception of [httpx.get] that is a [BaseException] only (a
    cancellation, a keyboard interrupt) is not caught by [except Exception]:
    it leaves [search_relevant_links] as it is, and nothing is printed. *)
Theorem search_relevant_links_passes_base_exception query st f :
  http_get w GOOGLE_SEARCH_API_URL (search_params w query) = Failed f →
  failure_class f = BaseException →
  search_relevant_links w query st = (Raised (Foreign f), st).
Proof.
  intros Hget Hcls. rewrite search_relevant_links_run, Hget.
  unfold isinstance. simpl. by rewrite Hcls.
Qed.

End more_retriever.

(** ** More on the request pipeline *)

Section more_pipeline.
Context `{Runtime} (w : world).

Lemma bind_run {A B} (m : IO A) (f : A → IO B) st a st1 :
  m st = (Returned a, st1) → (m ≫= f) st = f a st1.
Proof. unfold mbind, IO_bind. by intros ->. Qed.

Lemma bind_fail {A B} (m : IO A) (f : A → IO B) st e st1 :
  m st = (Raised e, st1) → (m ≫= f) st = (Raised e, st1).
Proof. unfold mbind, IO_bind. by intros ->. Qed.

Lemma logger_write_fail lvl line st f :
  logger_call w (log_calls st) = Some f →
  fst (logger_write w lvl line st) = Raised (Foreign f).
Proof. unfold logger_write. by intros ->. Qed.

Lemma search_relevant_links_log query st a st' :
  search_relevant_links w query st = (a, st') →
  log st' = log st ∧ log_calls st' = log_calls st.
Proof.
  intros [[-> _]|(_ & e & _ & ->)]%search_relevant_links_cases; done.
Qed.

(** X10: every [HTTPException] that leaves [predict] is one of its own two,
    and the ERROR line naming the request and the caught exception was
    written just before: 400 with the exception's text for a [ValueError],
    500 with the generic detail for any other [Exception]. *)
Theorem predict_logs_before_http_exception parsed st status detail st' :
  predict w parsed st = (Raised (HTTPException status detail), st') →
  ∃ e st1,
    predict_try w parsed st = (Raised e, st1)
    ∧ (status = 400%Z ∧ detail = StrOf e
       ∧ isinstance e ValueError = true
       ∧ st' = logged ERROR (ValidationFailure (id parsed) e) st1
       ∨ status = 500%Z ∧ detail = Literal internal_server_error
         ∧ isinstance e ValueError = false
         ∧ isinstance e Exception = true
         ∧ st' = logged ERROR (InternalFailure (id parsed) e) st1).
Proof.
  unfold predict, try_except.
  destruct (predict_try w parsed st) as [[r0|e0] st1] eqn:Htry; [done|].
  apply predict_try_raised in Htry as Hkind. simpl.
  unfold mbind, IO_bind, logger_error, raise, call.
  destruct (isinstance e0 ValueError) eqn:Hvalue.
  { destruct (logger_write w ERROR _ st1) as [[[]|e1] st2] eqn:Hlog.
    - apply logger_write_returned in Hlog as [_ ->].
      intros [= <- <- <-]. exists e0, st1. split; [done|]. by left.
    - apply logger_write_raised in Hlog as [f ->]. done. }
  destruct (isinstance e0 Exception) eqn:Hcls.
  { destruct (logger_write w ERROR _ st1) as [[[]|e1] st2] eqn:Hlog.
    - apply logger_write_returned in Hlog as [_ ->].
      intros [= <- <- <-]. exists e0, st1. split; [done|]. by right.
    - apply logger_write_raised in Hlog as [f ->]. done. }
  intros [= -> <-]. by destruct Hkind as [[? ?]|[? ?]].
Qed.

(** X11: when the logger fails on the ERROR line of an [except] clause,
    [predict] raises the logger's exception: no [HTTPException] is raised and
    the exception that was being handled is dropped. *)
Theorem failing_error_log_replaces_exception parsed st e st1 f :
  predict_try w parsed st = (Raised e, st1) →
  isinstance e Exception = true →
  logger_call w (log_calls st1) = Some f →
  fst (predict w parsed st) = Raised (Foreign f).
Proof.
  intros Htry Hcls Hlog. unfold predict, try_except. rewrite Htry. simpl.
  destruct (isinstance e ValueError); [|rewrite Hcls];
    unfold mbind, IO_bind, logger_error, logger_write; by rewrite Hlog.
Qed.

(** The log of a [try] block that runs to its end. *)
Lemma predict_try_log parsed st r st' :
  predict_try w parsed st = (Returned r, st') →
  log st' = log st ++ [(INFO, ProcessingRequest (id parsed));
                       (INFO, ProcessedRequest (id parsed))]
  ∧ log_calls st' = 2 + log_calls st.
Proof.
  unfold predict_try.
  intros (u1 & st1 & Hlog1 & (answer & st2 & Hanswer &
    ([sources reasoning] & st3 & Hsearch &
      (response & st4 & Hresponse & (u2 & st5 & Hlog2 & Hret)%bind_returned
      )%bind_returned)%bind_returned)%bind_returned)%bind_returned.
  injection Hret as _ Hst.
  apply logger_write_returned in Hlog1 as [_ Hst1].
  apply logger_write_returned in Hlog2 as [_ Hst5].
  apply get_correct_answer_log in Hanswer as [Hc2 Hl2].
  apply search_relevant_links_log in Hsearch as [Hl3 Hc3].
  assert (st4 = st3) as Hst4 by (unfold call in Hresponse; congruence).
  subst. simpl. rewrite Hl3, Hc3, Hl2, Hc2. simpl.
  by rewrite <-(assoc_L (++)).
Qed.

End more_pipeline.

(** ** More on the route and the middleware *)

Section more_http.
Context `{Runtime} (w : world).

Lemma log_requests_inv request call_next st resp st' :
  log_requests w request call_next st = (Returned resp, st') →
  ∃ st2,
    call_next request
      (logged INFO (IncomingRequest (method request) (url request)
                      (body request)) st) = (Returned resp, st2)
    ∧ st' = logged INFO (RequestCompleted (method request) (url request)
                           (status_code resp) (content resp)) st2.
Proof.
  unfold log_requests.
  intros (p & st0 & Hdecode & (u1 & st1 & Hlog1 & (response & st2 & Hnext &
    (u2 & st3 & Hlog2 & Hret)%bind_returned)%bind_returned)%bind_returned
    )%bind_returned.
  injection Hret as <- <-.
  assert (p = body request ∧ st0 = st) as [-> ->].
  { unfold call, decode in Hdecode. destruct (body request); by simplify_eq. }
  apply logger_write_returned in Hlog1 as [_ ->].
  apply logger_write_returned in Hlog2 as [_ ->].
  exists st2. by destruct response.
Qed.

(** X12: for any downstream handler, a reply that [log_requests] returns is
    the handler's reply with unchanged status and body, the handler ran on
    the state just after the request line, and the completion line with the
    reply's status is the last thing written. *)
Theorem log_requests_is_transparent request call_next st resp st' :
  log_requests w request call_next st = (Returned resp, st') →
  ∃ st2,
    call_next request
      (logged INFO (IncomingRequest (method request) (url request)
                      (body request)) st) = (Returned resp, st2)
    ∧ st' = logged INFO (RequestCompleted (method request) (url request)
                           (status_code resp) (content resp)) st2.
Proof.
  unfold log_requests.
  intros (p & st0 & Hdecode & (u1 & st1 & Hlog1 & (response & st2 & Hnext &
    (u2 & st3 & Hlog2 & Hret)%bind_returned)%bind_returned)%bind_returned
    )%bind_returned.
  injection Hret as <- <-.
  assert (p = body request ∧ st0 = st) as [-> ->].
  { unfold call, decode in Hdecode. destruct (body request); by simplify_eq. }
  apply logger_write_returned in Hlog1 as [_ ->].
  apply logger_write_returned in Hlog2 as [_ ->].
  exists st2. by destruct response.
Qed.

(** X13: when the logger fails on the completion line, the reply the
    handler had produced is lost: [log_requests] raises the logger's
    exception instead of returning it. *)
Theorem failing_last_log_loses_response request call_next st response st1 f :
  body request ≠ NotUtf8 →
  logger_call w (log_calls st) = None →
  call_next request
    (logged INFO (IncomingRequest (method request) (url request)
                    (body request)) st) = (Returned response, st1) →
  logger_call w (log_calls st1) = Some f →
  fst (log_requests w request call_next st) = Raised (Foreign f).
Proof.
  intros Hbody Hlog1 Hnext Hlog2. unfold log_requests, logger_info.
  assert (decode (body request) = Returned (body request)) as Hdecode
    by (by destruct (body request)).
  io_step. unfold call. rewrite Hdecode.
  io_step. rewrite logger_write_ok by done.
  io_step. rewrite Hnext.
  io_step. unfold logger_write. by rewrite Hlog2.
Qed.





(** X16: a request answered with 200 writes exactly four INFO lines, in this
    order: the incoming request, the start of processing, the end of
    processing, the completion with status 200; neither API helper logs. *)
Theorem successful_request_log request st resp st' :
  app w request st = (Returned resp, st') →
  status_code resp = 200%Z →
  ∃ j parsed,
    body request = Json j ∧ validate_request j = Some parsed
    ∧ log st' =
        log st ++
        [(INFO, IncomingRequest (method request) (url request) (body request));
         (INFO, ProcessingRequest (id parsed));
         (INFO, ProcessedRequest (id parsed));
         (INFO, RequestCompleted (method request) (url request) 200
                  (content resp))]
    ∧ log_calls st' = 4 + log_calls st.
Proof.
  intros (st2 & Hroute & ->)%log_requests_inv Hstatus.
  destruct (api_request_200 w _ _ _ _ Hroute Hstatus)
    as (j & parsed & r & Hbody & Hj & _ & Htry).
  apply predict_try_log in Htry as [Hlog Hcalls].
  exists j, parsed. split_and!; [done..| |].
  - simpl. rewrite Hlog, Hstatus. simpl. by rewrite <-!(assoc_L (++)).
  - simpl. rewrite Hcalls. simpl. lia.
Qed.

(** X17: a failure of the completion call that is a [BaseException] only
    (a cancellation, say) is caught neither by [get_correct_answer] nor by
    the two [except] clauses of [predict]: it leaves [predict] unchanged, no
    [HTTPException] is raised and no ERROR line is written; the only line in
    the log is the one that announced the processing. *)
Theorem cancelled_completion_leaves_predict parsed st f :
  logger_call w (log_calls st) = None →
  chat_create w (completion_request (query parsed)) = Failed f →
  failure_class f = BaseException →
  predict w parsed st =
    (Raised (Foreign f), logged INFO (ProcessingRequest (id parsed)) st).
Proof.
  intros Hlog Hchat Hcls.
  assert (Hrun : ∀ st0, get_correct_answer w (query parsed) st0
                        = (Raised (Foreign f), st0)).
  { intros st0. rewrite get_correct_answer_run, Hchat.
    unfold isinstance. simpl. by rewrite Hcls. }
  unfold predict, try_except, predict_try, logger_info.
  io_step. rewrite logger_write_ok by done.
  io_step. rewrite Hrun. simpl.
  unfold isinstance. simpl. by rewrite Hcls.
Qed.

End more_http.

(** ** More runs on concrete surroundings *)

Section more_runs.
#[local] Existing Instance sample_runtime.

Lemma last_token_is_a_word_witness :
  last (Py.split (Py.strip (Py.codes " The answer is  2 ")))
    = Some (Py.codes "2")
  ∧ Py.codes "2" ≠ []
  ∧ Forall (λ c, Py.isspace c = false) (Py.codes "2").
Proof.
  split; [reflexivity|].
  apply (last_token_is_a_word (Py.codes " The answer is  2 ")). reflexivity.
Defined.

Lemma trailing_non_digit_gives_sentinel_witness :
  ∃ response first rest,
    chat_create world_full_stop (completion_request sample_query)
      = Replied (Some response)
    ∧ Together.choices response = Some (first :: rest)
    ∧ first_content first = Some (Py.codes "The answer is 3.")
    ∧ last (Py.split (Py.strip (Py.codes "The answer is 3.")))
      = Some (Py.codes "3" ++ [46%N])
    ∧ (46 < 127)%N
    ∧ Py.c_isdigit 46 = false
    ∧ get_correct_answer world_full_stop sample_query io0 =
        (Returned (Some (-1)%Z),
         printed answer_error_prefix
           (InvalidLiteral (Py.codes "3" ++ [46%N])) io0).
Proof.
  eexists _, _, _. split; [reflexivity|]. split; [reflexivity|].
  split; [reflexivity|]. split; [reflexivity|]. split; [reflexivity|].
  split; [reflexivity|].
  eapply (trailing_non_digit_gives_sentinel world_full_stop sample_query io0);
    reflexivity.
Defined.

Lemma digit_token_gives_its_value_witness :
  ∃ response first rest,
    chat_create world_ok (completion_request sample_query)
      = Replied (Some response)
    ∧ Together.choices response = Some (first :: rest)
    ∧ first_content first = Some (Py.codes "The answer is 2")
    ∧ last (Py.split (Py.strip (Py.codes "The answer is 2")))
      = Some (Py.codes "2")
    ∧ Forall (λ c, Py.c_isdigit c = true) (Py.codes "2")
    ∧ (int_max_str_digits = 0 ∨ length (Py.codes "2") ≤ int_max_str_digits)
    ∧ decimal_value (Py.codes "2") = 2%Z
    ∧ get_correct_answer world_ok sample_query io0
      = (Returned (Some (decimal_value (Py.codes "2"))), io0).
Proof.
  assert (Hdigits : Forall (λ c, Py.c_isdigit c = true) (Py.codes "2"))
    by (by repeat constructor).
  assert (Hlimit : int_max_str_digits = 0
                   ∨ length (Py.codes "2") ≤ int_max_str_digits)
    by (right; simpl; lia).
  eexists _, _, _. split; [reflexivity|]. split; [reflexivity|].
  split; [reflexivity|]. split; [reflexivity|]. split; [exact Hdigits|].
  split; [exact Hlimit|]. split; [reflexivity|].
  eapply (digit_token_gives_its_value world_ok sample_query io0);
    [reflexivity | reflexivity | reflexivity | reflexivity
    | exact Hdigits | exact Hlimit].
Defined.

Lemma get_correct_answer_effects_witness :
  ∃ a st',
    get_correct_answer world_full_stop sample_query io0 = (a, st')
    ∧ log st' = log io0 ∧ log_calls st' = log_calls io0
    ∧ (st' = io0
       ∨ a = Returned (Some (-1)%Z)
         ∧ ∃ e, isinstance e Exception = true
                ∧ st' = printed answer_error_prefix e io0).
Proof.
  eexists _, _. split; [vm_compute; reflexivity|].
  eapply (get_correct_answer_effects world_full_stop sample_query io0).
  vm_compute. reflexivity.
Defined.

Lemma reasoning_lists_each_result_witness :
  ∃ response data,
    http_get world_ok GOOGLE_SEARCH_API_URL
      (search_params world_ok sample_query) = Replied response
    ∧ success_status response = true
    ∧ httpx.json response = Some data
    ∧ result_items data = Some itmo_results
    ∧ Forall (λ item, is_Some (item_url item)) (take 3 itmo_results)
    ∧ ∃ sources,
        search_relevant_links world_ok sample_query io0 =
        (Returned (sources,
                   search_lead_in
                     ++ concat (result_line <$> take 3 itmo_results)),
         io0).
Proof.
  assert (Hall : Forall (λ item, is_Some (item_url item))
                   (take 3 itmo_results)).
  { repeat constructor; vm_compute; eauto. }
  eexists _, _. split; [reflexivity|]. split; [reflexivity|].
  split; [reflexivity|]. split; [vm_compute; reflexivity|].
  split; [exact Hall|].
  eapply (reasoning_lists_each_result world_ok sample_query io0);
    [reflexivity | reflexivity | reflexivity | vm_compute; reflexivity
    | exact Hall].
Defined.

Lemma no_results_is_no_failure_witness :
  ∃ response,
    http_get world_no_results GOOGLE_SEARCH_API_URL
      (search_params world_no_results sample_query) = Replied response
    ∧ success_status response = true
    ∧ httpx.json response = Some (JObj ∅)
    ∧ default (JArr []) ((∅ : gmap pystr json) !! Py.codes "items") = JArr []
    ∧ search_relevant_links world_no_results sample_query io0
      = (Returned ([], search_lead_in), io0).
Proof.
  eexists. split; [reflexivity|]. split; [reflexivity|].
  split; [reflexivity|]. split; [reflexivity|].
  eapply (no_results_is_no_failure world_no_results sample_query io0);
    reflexivity.
Defined.

Lemma search_relevant_links_effects_witness :
  ∃ a st',
    search_relevant_links world_search_down sample_query io0 = (a, st')
    ∧ log st' = log io0 ∧ log_calls st' = log_calls io0
    ∧ (st' = io0 ∧ (∀ sources, a ≠ Returned (sources, search_apology))
       ∨ a = Returned ([], search_apology)
         ∧ ∃ e, isinstance e Exception = true
                ∧ st' = printed search_error_prefix e io0).
Proof.
  eexists _, _. split; [vm_compute; reflexivity|].
  eapply (search_relevant_links_effects world_search_down sample_query io0).
  vm_compute. reflexivity.
Defined.

Lemma search_relevant_links_passes_base_exception_witness :
  http_get world_search_cancelled GOOGLE_SEARCH_API_URL
    (search_params world_search_cancelled sample_query) = Failed cancelled
  ∧ failure_class cancelled = BaseException
  ∧ search_relevant_links world_search_cancelled sample_query io0
    = (Raised (Foreign cancelled), io0).
Proof.
  split; [reflexivity|]. split; [reflexivity|].
  apply (search_relevant_links_passes_base_exception
           world_search_cancelled sample_query io0 cancelled); reflexivity.
Defined.

Lemma predict_logs_before_http_exception_witness :
  ∃ parsed st',
    validate_request question = Some parsed
    ∧ predict world_logger_hiccup parsed io0
      = (Raised (HTTPException 500 (Literal internal_server_error)), st')
    ∧ ∃ e st1,
        predict_try world_logger_hiccup parsed io0 = (Raised e, st1)
        ∧ (500 = 400 ∧ Literal internal_server_error = StrOf e
           ∧ isinstance e ValueError = true
           ∧ st' = logged ERROR (ValidationFailure (id parsed) e) st1
           ∨ 500 = 500 ∧ Literal internal_server_error
                          = Literal internal_server_error
             ∧ isinstance e ValueError = false
             ∧ isinstance e Exception = true
             ∧ st' = logged ERROR (InternalFailure (id parsed) e) st1)%Z.
Proof.
  eexists _, _. split; [vm_compute; reflexivity|].
  split; [vm_compute; reflexivity|].
  eapply (predict_logs_before_http_exception world_logger_hiccup _ io0).
  vm_compute. reflexivity.
Defined.

Lemma failing_error_log_replaces_exception_witness :
  ∃ parsed st1,
    validate_request question = Some parsed
    ∧ predict_try world_no_logger parsed io0
      = (Raised (Foreign logger_is_None), st1)
    ∧ isinstance (Foreign logger_is_None) Exception = true
    ∧ logger_call world_no_logger (log_calls st1) = Some logger_is_None
    ∧ fst (predict world_no_logger parsed io0)
      = Raised (Foreign logger_is_None).
Proof.
  eexists _, _. split; [vm_compute; reflexivity|].
  split; [vm_compute; reflexivity|]. split; [reflexivity|].
  split; [reflexivity|].
  eapply (failing_error_log_replaces_exception world_no_logger _ io0);
    [vm_compute; reflexivity | reflexivity | reflexivity].
Defined.

Lemma log_requests_is_transparent_witness :
  ∃ resp st',
    log_requests world_ok (post question) (api_request world_ok) io0
      = (Returned resp, st')
    ∧ ∃ st2,
        api_request world_ok (post question)
          (logged INFO (IncomingRequest (method (post question))
                          (url (post question)) (body (post question))) io0)
          = (Returned resp, st2)
        ∧ st' = logged INFO
                  (RequestCompleted (method (post question))
                     (url (post question)) (status_code resp) (content resp))
                  st2.
Proof.
  eexists _, _. split; [vm_compute; reflexivity|].
  eapply (log_requests_is_transparent world_ok (post question)
            (api_request world_ok) io0).
  vm_compute. reflexivity.
Defined.

Lemma failing_last_log_loses_response_witness :
  ∃ response st1,
    body (post question) ≠ NotUtf8
    ∧ logger_call world_last_line_fails (log_calls io0) = None
    ∧ api_request world_last_line_fails (post question)
        (logged INFO (IncomingRequest (method (post question))
                        (url (post question)) (body (post question))) io0)
      = (Returned response, st1)
    ∧ status_code response = 200%Z
    ∧ logger_call world_last_line_fails (log_calls st1) = Some disk_full
    ∧ fst (log_requests world_last_line_fails (post question)
             (api_request world_last_line_fails) io0)
      = Raised (Foreign disk_full).
Proof.
  eexists _, _. split; [done|]. split; [reflexivity|].
  split; [vm_compute; reflexivity|]. split; [reflexivity|].
  split; [reflexivity|].
  eapply (failing_last_log_loses_response world_last_line_fails
            (post question) (api_request world_last_line_fails) io0);
    [done | reflexivity | vm_compute; reflexivity | reflexivity].
Defined.



Lemma successful_request_log_witness :
  ∃ resp st',
    app world_ok (post question) io0 = (Returned resp, st')
    ∧ status_code resp = 200%Z
    ∧ ∃ j parsed,
        body (post question) = Json j ∧ validate_request j = Some parsed
        ∧ log st' =
            log io0 ++
            [(INFO, IncomingRequest (method (post question))
                      (url (post question)) (body (post question)));
             (INFO, ProcessingRequest (id parsed));
             (INFO, ProcessedRequest (id parsed));
             (INFO, RequestCompleted (method (post question))
                      (url (post question)) 200 (content resp))]
        ∧ log_calls st' = 4 + log_calls io0.
Proof.
  eexists _, _. split; [vm_compute; reflexivity|]. split; [reflexivity|].
  eapply (successful_request_log world_ok (post question) io0);
    [vm_compute; reflexivity | reflexivity].
Defined.

Lemma cancelled_completion_leaves_predict_witness :
  ∃ parsed,
    validate_request question = Some parsed
    ∧ logger_call world_cancelled (log_calls io0) = None
    ∧ chat_create world_cancelled (completion_request (query parsed))
      = Failed cancelled
    ∧ failure_class cancelled = BaseException
    ∧ predict world_cancelled parsed io0 =
        (Raised (Foreign cancelled),
         logged INFO (ProcessingRequest (id parsed)) io0).
Proof.
  eexists. split; [vm_compute; reflexivity|].
  split; [reflexivity|]. split; [reflexivity|]. split; [reflexivity|].
  eapply (cancelled_completion_leaves_predict world_cancelled _ io0 cancelled);
    reflexivity.
Defined.

End more_runs.
